(** * Clinic reservation backend: the handlers of [backend/main.go]

    The backend is a set of gin handlers over one MongoDB database,
    [hospital], with the collections [users], [doctor] and [patients].
    Each handler reads its path parameters and JSON body, issues one or
    two calls on a collection and answers with a status and a JSON value.

    The embedding keeps that shape.  A handler is a function from the
    request context to a computation over the shared [client]; filters
    and update documents are written as the [bson.M] literals of the
    source and interpreted by a small model of the driver calls the
    handlers use ([CountDocuments], [InsertOne], [Find], [FindOne],
    [UpdateOne] with [$set], [$push], [$pull] and the positional [$]).

    Conventions of the model:
    - the documents of a collection have the shape of the Go struct the
      handlers decode them into;
    - the schedule of a patient is an array of strings or null, null
      being what the driver stores for a nil [[]string]: the server
      refuses [$push] and [$pull] on a null field, and no filter on an
      element matches it;
    - the schedule of a doctor is only ever written whole by [$set] and
      read back, which a nil slice and an empty one go through alike, so
      it is a list;
    - a collection is the list of its documents in natural order, which
      is the order of insertion, the handlers deleting nothing;
    - a call to the server either is answered or fails as a whole; which
      of the two is read off the client ([outages]), so that the error
      branches of the handlers are part of the model;
    - [bcrypt.GenerateFromPassword] draws a random salt, and is a
      variable of the section that defines [SignUp];
    - handlers run one after the other. *)

From Stdlib Require Import String List ZArith Bool Lia.
Import ListNotations.
Open Scope string_scope.
Open Scope list_scope.

(** ** Go values: errors and results *)

Inductive error : Type :=
| ErrBind                    (* the body is not JSON of the bound type *)
| ErrNoDocuments             (* mongo.ErrNoDocuments *)
| ErrUnreachable             (* the server did not answer the call *)
| ErrWrite (msg : string)    (* the server refused the write *)
| ErrHash.                   (* bcrypt could not produce a hash *)

Inductive Result (A : Type) : Type :=
| Ok (a : A)
| Err (e : error).
Arguments Ok {A} a.
Arguments Err {A} e.

(** A [[]string] where it matters whether the slice is nil: the driver
    stores a nil slice as null and any other slice, the empty one
    included, as an array, and decodes them back the same way. *)
Inductive Strings : Type :=
| Nil
| Slice (l : list string).

Definition entries (s : Strings) : list string :=
  match s with
  | Nil => []
  | Slice l => l
  end.

(** ** The structs of [main.go] *)

Module User.
Record t : Type := mk { Username : string; Password : string; Email : string }.
End User.

Module Doctor.
Record t : Type := mk { ID : string; DName : string; Schedule : list string }.
End Doctor.

Module Patient.
Record t : Type := mk { ID : string; PName : string; Schedule : Strings }.
End Patient.

(** ** BSON documents as the handlers build them *)

Module bson.

(** The values the handlers put in a [bson.M]: a string, a [[]string],
    or a nested [bson.M]; and null, which a stored field can be. *)
#[local] Set Warnings "-register-all".
Inductive Value : Type :=
| Null
| Str (s : string)
| Strs (l : list string)
| Doc (m : list (string * Value)).

Definition M : Type := list (string * Value).
Definition D : Type := list (string * Value).

Fixpoint lookup (key : string) (m : M) : option Value :=
  match m with
  | [] => None
  | (k, v) :: rest => if k =? key then Some v else lookup key rest
  end.

End bson.
Import bson.

(** A struct stored in a collection is read and written field by field
    under its BSON keys: the [bson] tags of [Doctor] and [Patient], and the
    lower-cased field names of [User], which has no [bson] tags.  [put]
    answers [None] for a key or a value outside the struct's shape. *)
Class Document (T : Type) : Type := {
  get : string -> T -> option Value;
  put : string -> Value -> T -> option T
}.

#[export] Instance User_Document : Document User.t := {
  get key u :=
    if key =? "username" then Some (Str (User.Username u))
    else if key =? "password" then Some (Str (User.Password u))
    else if key =? "email" then Some (Str (User.Email u))
    else None;
  put key v u :=
    match v with
    | Str s =>
        if key =? "username" then Some (User.mk s (User.Password u) (User.Email u))
        else if key =? "password" then Some (User.mk (User.Username u) s (User.Email u))
        else if key =? "email" then Some (User.mk (User.Username u) (User.Password u) s)
        else None
    | _ => None
    end
}.

#[export] Instance Doctor_Document : Document Doctor.t := {
  get key d :=
    if key =? "id" then Some (Str (Doctor.ID d))
    else if key =? "dname" then Some (Str (Doctor.DName d))
    else if key =? "schedule" then Some (Strs (Doctor.Schedule d))
    else None;
  put key v d :=
    match v with
    | Str s =>
        if key =? "id" then Some (Doctor.mk s (Doctor.DName d) (Doctor.Schedule d))
        else if key =? "dname" then Some (Doctor.mk (Doctor.ID d) s (Doctor.Schedule d))
        else None
    | Strs l =>
        if key =? "schedule" then Some (Doctor.mk (Doctor.ID d) (Doctor.DName d) l)
        else None
    | Null => None
    | Doc _ => None
    end
}.

#[export] Instance Patient_Document : Document Patient.t := {
  get key p :=
    if key =? "id" then Some (Str (Patient.ID p))
    else if key =? "pname" then Some (Str (Patient.PName p))
    else if key =? "schedule" then
      Some (match Patient.Schedule p with
            | Nil => Null
            | Slice l => Strs l
            end)
    else None;
  put key v p :=
    match v with
    | Str s =>
        if key =? "id" then Some (Patient.mk s (Patient.PName p) (Patient.Schedule p))
        else if key =? "pname" then Some (Patient.mk (Patient.ID p) s (Patient.Schedule p))
        else None
    | Strs l =>
        if key =? "schedule" then Some (Patient.mk (Patient.ID p) (Patient.PName p) (Slice l))
        else None
    | Null =>
        if key =? "schedule" then Some (Patient.mk (Patient.ID p) (Patient.PName p) Nil)
        else None
    | Doc _ => None
    end
}.

(** ** The document store *)

(** The database [hospital]: three collections, each in its natural
    (insertion) order.  Documents have the shape of the Go structs. *)
Record Database : Type := {
  users : list User.t;
  doctor : list Doctor.t;
  patients : list Patient.t
}.

(** The shared [client].  [outages] is the fate of the coming calls, one
    flag per call and [true] for a call the server does not answer; past
    the end of the list every call is answered. *)
Record Client : Type := {
  hospital : Database;
  outages : list bool
}.

(** [client.Database("hospital").Collection(name)] as a typed handle. *)
Record Collection (T : Type) : Type := {
  docs : Database -> list T;
  store : list T -> Database -> Database
}.
Arguments docs {T} _ _.
Arguments store {T} _ _ _.

Definition users_collection : Collection User.t := {|
  docs := fun db => db.(users);
  store := fun l db => {| users := l; doctor := db.(doctor); patients := db.(patients) |}
|}.

Definition doctor_collection : Collection Doctor.t := {|
  docs := fun db => db.(doctor);
  store := fun l db => {| users := db.(users); doctor := l; patients := db.(patients) |}
|}.

Definition patients_collection : Collection Patient.t := {|
  docs := fun db => db.(patients);
  store := fun l db => {| users := db.(users); doctor := db.(doctor); patients := l |}
|}.

(** A computation over the client. *)
Definition Mongo (A : Type) : Type := Client -> A * Client.

Definition ret {A : Type} (a : A) : Mongo A := fun cl => (a, cl).

Definition bind {A B : Type} (m : Mongo A) (k : A -> Mongo B) : Mongo B :=
  fun cl => let (a, cl') := m cl in k a cl'.

Declare Scope mongo_scope.
Delimit Scope mongo_scope with mongo.
Notation "x <- m ;; k" := (bind m (fun x => k))
  (at level 100, m at next level, right associativity) : mongo_scope.
Open Scope mongo_scope.

(** One call to the server: it uses up the next outage flag and tells
    whether the call was answered. *)
Definition roundtrip : Mongo bool := fun cl =>
  (negb (hd false cl.(outages)),
   {| hospital := cl.(hospital); outages := tl cl.(outages) |}).

Definition read {T : Type} (coll : Collection T) : Mongo (list T) :=
  fun cl => (docs coll cl.(hospital), cl).

Definition write {T : Type} (coll : Collection T) (l : list T) : Mongo unit :=
  fun cl => (tt, {| hospital := store coll l cl.(hospital); outages := cl.(outages) |}).

(** *** Query filters *)

Fixpoint strings_eqb (l m : list string) : bool :=
  match l, m with
  | [], [] => true
  | x :: l', y :: m' => (x =? y) && strings_eqb l' m'
  | _, _ => false
  end.

(** A field matches a filter value when it equals it, or when it is an
    array one of whose elements equals it. *)
Definition match_value (field v : Value) : bool :=
  match field, v with
  | Str s, Str t => s =? t
  | Strs l, Str t => existsb (fun x => x =? t) l
  | Strs l, Strs m => strings_eqb l m
  | Null, Null => true
  | _, _ => false
  end.

(** A document matches a filter when every entry of the filter matches. *)
Definition matches {T : Type} `{Document T} (filter : M) (d : T) : bool :=
  forallb (fun '(key, v) =>
             match get key d with
             | Some field => match_value field v
             | None => false
             end) filter.

(** *** Update operators *)

(** ["schedule.$"] names the array [schedule] through the positional
    operator; [positional] gives the array's key for such a path. *)
Fixpoint positional (path : string) : option string :=
  match path with
  | EmptyString => None
  | String c rest =>
      if rest =? ".$" then Some (String c EmptyString)
      else option_map (String c) (positional rest)
  end.

(** Index of the first element of an array equal to [s]. *)
Fixpoint first_index (s : string) (l : list string) : option nat :=
  match l with
  | [] => None
  | x :: l' => if x =? s then Some 0%nat else option_map S (first_index s l')
  end.

Fixpoint set_nth (i : nat) (s : string) (l : list string) : list string :=
  match l, i with
  | [], _ => []
  | _ :: l', O => s :: l'
  | x :: l', S i' => x :: set_nth i' s l'
  end.

Definition pull (s : string) (l : list string) : list string :=
  List.filter (fun x => negb (x =? s)) l.

Definition put_field {T : Type} `{Document T} (key : string) (v : Value) (d : T) : Result T :=
  match put key v d with
  | Some d' => Ok d'
  | None => Err (ErrWrite "field outside the document's shape")
  end.

(** One operator applied to one field of a document.  The positional
    [$] stands for the first array element matched by the filter's
    condition on that array. *)
Definition modify {T : Type} `{Document T}
    (filter : M) (op path : string) (v : Value) (d : T) : Result T :=
  if op =? "$set" then
    match positional path with
    | Some array =>
        match lookup array filter, get array d, v with
        | Some (Str wanted), Some (Strs l), Str s =>
            match first_index wanted l with
            | Some i => put_field array (Strs (set_nth i s l)) d
            | None => Err (ErrWrite "the positional operator did not find the match needed from the query")
            end
        | _, _, _ => Err (ErrWrite "the positional operator did not find the match needed from the query")
        end
    | None => put_field path v d
    end
  else if op =? "$push" then
    match get path d, v with
    | Some (Strs l), Str s => put_field path (Strs (l ++ [s])) d
    | _, _ => Err (ErrWrite "the field must be an array")
    end
  else if op =? "$pull" then
    match get path d, v with
    | Some (Strs l), Str s => put_field path (Strs (pull s l)) d
    | _, _ => Err (ErrWrite "cannot apply $pull to a non-array value")
    end
  else Err (ErrWrite "unknown modifier").

Fixpoint apply_fields {T : Type} `{Document T}
    (filter : M) (op : string) (fields : M) (d : T) : Result T :=
  match fields with
  | [] => Ok d
  | (path, v) :: rest =>
      match modify filter op path v d with
      | Ok d' => apply_fields filter op rest d'
      | Err e => Err e
      end
  end.

(** An update document maps each operator to the fields it changes. *)
Fixpoint apply_update {T : Type} `{Document T}
    (filter update : M) (d : T) : Result T :=
  match update with
  | [] => Ok d
  | (op, Doc fields) :: rest =>
      match apply_fields filter op fields d with
      | Ok d' => apply_update filter rest d'
      | Err e => Err e
      end
  | (_, _) :: _ => Err (ErrWrite "modifiers operate on fields")
  end.

(** The first document a filter selects is rewritten, the others stay;
    the count is the number of documents selected (0 or 1). *)
Fixpoint update_first {T : Type} (selects : T -> bool) (f : T -> Result T)
    (l : list T) : Result (Z * list T) :=
  match l with
  | [] => Ok (0%Z, [])
  | d :: l' =>
      if selects d then
        match f d with
        | Ok d' => Ok (1%Z, d' :: l')
        | Err e => Err e
        end
      else
        match update_first selects f l' with
        | Ok (n, l'') => Ok (n, d :: l'')
        | Err e => Err e
        end
  end.

(** *** The driver calls *)

Record UpdateResult : Type := { MatchedCount : Z }.

Definition CountDocuments {T : Type} `{Document T}
    (coll : Collection T) (filter : M) : Mongo (Result Z) :=
  answered <- roundtrip ;;
  if answered : bool then
    (l <- read coll ;;
     ret (Ok (Z.of_nat (length (List.filter (matches filter) l)))))
  else ret (Err ErrUnreachable).

(** The new document goes last; the driver adds the [_id] the structs do
    not carry, so no insert collides with an earlier one. *)
Definition InsertOne {T : Type} (coll : Collection T) (document : T) : Mongo (Result unit) :=
  answered <- roundtrip ;;
  if answered : bool then
    (l <- read coll ;;
     _ <- write coll (l ++ [document]) ;;
     ret (Ok tt))
  else ret (Err ErrUnreachable).

(** [Find] with its cursor read to the end. *)
Definition Find {T : Type} `{Document T}
    (coll : Collection T) (filter : D) : Mongo (Result (list T)) :=
  answered <- roundtrip ;;
  if answered : bool then
    (l <- read coll ;;
     ret (Ok (List.filter (matches filter) l)))
  else ret (Err ErrUnreachable).

(** [FindOne(...).Decode(&x)]: the first document the filter selects. *)
Definition FindOne {T : Type} `{Document T}
    (coll : Collection T) (filter : M) : Mongo (Result T) :=
  answered <- roundtrip ;;
  if answered : bool then
    (l <- read coll ;;
     match List.find (matches filter) l with
     | Some d => ret (Ok d)
     | None => ret (Err ErrNoDocuments)
     end)
  else ret (Err ErrUnreachable).

(** [UpdateOne] without upsert: with no document selected nothing is
    written and no error is raised. *)
Definition UpdateOne {T : Type} `{Document T}
    (coll : Collection T) (filter update : M) : Mongo (Result UpdateResult) :=
  answered <- roundtrip ;;
  if answered : bool then
    (l <- read coll ;;
     match update_first (matches filter) (apply_update filter update) l with
     | Ok (n, l') =>
         _ <- write coll l' ;;
         ret (Ok {| MatchedCount := n |})
     | Err e => ret (Err e)
     end)
  else ret (Err ErrUnreachable).

(** ** The request and the response *)

Module http.
Definition StatusOK : Z := 200.
Definition StatusBadRequest : Z := 400.
Definition StatusNotFound : Z := 404.
Definition StatusInternalServerError : Z := 500.
End http.

Module gin.

(** What a handler sees of the request: the path parameters and the
    outcome of binding the JSON body to the handler's variable. *)
Record Context (B : Type) : Type := {
  Params : list (string * string);
  Body : Result B
}.
Arguments Params {B} _.
Arguments Body {B} _.

Fixpoint by_name (key : string) (ps : list (string * string)) : string :=
  match ps with
  | [] => ""
  | (k, v) :: rest => if k =? key then v else by_name key rest
  end.

Definition Param {B : Type} (c : Context B) (key : string) : string :=
  by_name key (Params c).

Definition ShouldBindJSON {B : Type} (c : Context B) : Result B := Body c.

(** The objects the handlers serialise: a one-entry [gin.H], a doctor,
    the list of doctors, a schedule. *)
Inductive Object : Type :=
| H (key message : string)
| OfDoctor (d : Doctor.t)
| OfDoctors (l : list Doctor.t)
| OfStrings (l : Strings).

Record Response : Type := { Code : Z; Obj : Object }.

Definition JSON (code : Z) (obj : Object) : Response := {| Code := code; Obj := obj |}.

End gin.

Definition Handler : Type := Mongo gin.Response.

(** ** The handlers *)

Module bcrypt.
Definition DefaultCost : Z := 10.
End bcrypt.

Section SignUp.

(** [bcrypt.GenerateFromPassword]: the salted hash of a password at a
    cost, or an error. *)
Variable GenerateFromPassword : string -> Z -> Result string.

Definition isUsernameTaken (username : string) : Mongo (Result bool) :=
  let userCollection := users_collection in
  r <- CountDocuments userCollection [("username", Str username)] ;;
  match r with
  | Err err => ret (Err err)
  | Ok count => ret (Ok (0 <? count)%Z)
  end.

Definition SignUp (c : gin.Context User.t) : Handler :=
  match gin.ShouldBindJSON c with
  | Err _ => ret (gin.JSON http.StatusBadRequest (gin.H "error" "Invalid input data"))
  | Ok newUser =>
      r <- isUsernameTaken (User.Username newUser) ;;
      match r with
      | Err _ =>
          ret (gin.JSON http.StatusInternalServerError
                 (gin.H "error" "Error checking username availability"))
      | Ok true =>
          ret (gin.JSON http.StatusBadRequest (gin.H "error" "Username is already taken"))
      | Ok false =>
          match GenerateFromPassword (User.Password newUser) bcrypt.DefaultCost with
          | Err _ =>
              ret (gin.JSON http.StatusInternalServerError (gin.H "error" "Error hashing password"))
          | Ok hashedPassword =>
              let newUser :=
                User.mk (User.Username newUser) hashedPassword (User.Email newUser) in
              let userCollection := users_collection in
              r <- InsertOne userCollection newUser ;;
              match r with
              | Err _ =>
                  ret (gin.JSON http.StatusInternalServerError (gin.H "error" "Error creating user"))
              | Ok _ =>
                  ret (gin.JSON http.StatusOK (gin.H "message" "User created successfully"))
              end
          end
      end
  end.

End SignUp.

Definition Decode {T : Type} (raw : T) : Result T := Ok raw.

Fixpoint decode_all {T : Type} (cur : list T) (acc : list T) : Result (list T) :=
  match cur with
  | [] => Ok acc
  | raw :: cur' =>
      match Decode raw with
      | Err e => Err e
      | Ok d => decode_all cur' (acc ++ [d])
      end
  end.

Definition GetDoctors (c : gin.Context unit) : Handler :=
  let coll := doctor_collection in
  r <- Find coll [] ;;
  match r with
  | Err _ =>
      ret (gin.JSON http.StatusInternalServerError (gin.H "error" "Error fetching doctor data"))
  | Ok cur =>
      match decode_all cur [] with
      | Err _ =>
          ret (gin.JSON http.StatusInternalServerError (gin.H "error" "Error decoding doctor data"))
      | Ok doctors => ret (gin.JSON http.StatusOK (gin.OfDoctors doctors))
      end
  end.

Definition GetDoctorByID (c : gin.Context unit) : Handler :=
  let doctorID := gin.Param c "id" in
  let coll := doctor_collection in
  let filter := [("id", Str doctorID)] in
  r <- FindOne coll filter ;;
  match r with
  | Err _ => ret (gin.JSON http.StatusNotFound (gin.H "error" "Doctor not found"))
  | Ok doctor => ret (gin.JSON http.StatusOK (gin.OfDoctor doctor))
  end.

Definition CreateDoctor (c : gin.Context Doctor.t) : Handler :=
  match gin.ShouldBindJSON c with
  | Err _ => ret (gin.JSON http.StatusBadRequest (gin.H "error" "Invalid input data"))
  | Ok newDoctor =>
      let coll := doctor_collection in
      r <- InsertOne coll newDoctor ;;
      match r with
      | Err _ =>
          ret (gin.JSON http.StatusInternalServerError (gin.H "error" "Error creating doctor"))
      | Ok _ => ret (gin.JSON http.StatusOK (gin.H "message" "Doctor created successfully"))
      end
  end.

Definition SetDoctorSchedule (c : gin.Context (list string)) : Handler :=
  let doctorID := gin.Param c "id" in
  match gin.ShouldBindJSON c with
  | Err _ => ret (gin.JSON http.StatusBadRequest (gin.H "error" "Invalid input data"))
  | Ok schedule =>
      let coll := doctor_collection in
      let filter := [("id", Str doctorID)] in
      let update := [("$set", Doc [("schedule", Strs schedule)])] in
      r <- UpdateOne coll filter update ;;
      match r with
      | Err _ =>
          ret (gin.JSON http.StatusInternalServerError
                 (gin.H "error" "Error updating doctor's schedule"))
      | Ok _ =>
          ret (gin.JSON http.StatusOK (gin.H "message" "Doctor's schedule updated successfully"))
      end
  end.

Definition GetPatientAppointments (c : gin.Context unit) : Handler :=
  let patientID := gin.Param c "id" in
  let coll := patients_collection in
  let filter := [("id", Str patientID)] in
  r <- FindOne coll filter ;;
  match r with
  | Err _ => ret (gin.JSON http.StatusNotFound (gin.H "error" "Patient not found"))
  | Ok patient => ret (gin.JSON http.StatusOK (gin.OfStrings (Patient.Schedule patient)))
  end.

Definition BookAppointment (c : gin.Context string) : Handler :=
  let patientID := gin.Param c "id" in
  match gin.ShouldBindJSON c with
  | Err _ => ret (gin.JSON http.StatusBadRequest (gin.H "error" "Invalid input data"))
  | Ok newAppointment =>
      let coll := patients_collection in
      let filter := [("id", Str patientID)] in
      let update := [("$push", Doc [("schedule", Str newAppointment)])] in
      r <- UpdateOne coll filter update ;;
      match r with
      | Err _ =>
          ret (gin.JSON http.StatusInternalServerError (gin.H "error" "Error booking appointment"))
      | Ok _ => ret (gin.JSON http.StatusOK (gin.H "message" "Appointment booked successfully"))
      end
  end.

Definition UpdateAppointment (c : gin.Context string) : Handler :=
  let patientID := gin.Param c "id" in
  let appointmentID := gin.Param c "appointmentID" in
  match gin.ShouldBindJSON c with
  | Err _ => ret (gin.JSON http.StatusBadRequest (gin.H "error" "Invalid input data"))
  | Ok updatedAppointment =>
      let coll := patients_collection in
      let filter := [("id", Str patientID); ("schedule", Str appointmentID)] in
      let update := [("$set", Doc [("schedule.$", Str updatedAppointment)])] in
      r <- UpdateOne coll filter update ;;
      match r with
      | Err _ =>
          ret (gin.JSON http.StatusInternalServerError (gin.H "error" "Error updating appointment"))
      | Ok _ => ret (gin.JSON http.StatusOK (gin.H "message" "Appointment updated successfully"))
      end
  end.

Definition CancelAppointment (c : gin.Context unit) : Handler :=
  let patientID := gin.Param c "id" in
  let appointmentID := gin.Param c "appointmentID" in
  let coll := patients_collection in
  let filter := [("id", Str patientID)] in
  let update := [("$pull", Doc [("schedule", Str appointmentID)])] in
  r <- UpdateOne coll filter update ;;
  match r with
  | Err _ =>
      ret (gin.JSON http.StatusInternalServerError (gin.H "error" "Error canceling appointment"))
  | Ok _ => ret (gin.JSON http.StatusOK (gin.H "message" "Appointment canceled successfully"))
  end.

(** ** Requests as the router hands them to the handlers *)

Definition id_request {B : Type} (id : string) (body : Result B) : gin.Context B :=
  {| gin.Params := [("id", id)]; gin.Body := body |}.

Definition appointment_request {B : Type} (id appointmentID : string) (body : Result B)
    : gin.Context B :=
  {| gin.Params := [("id", id); ("appointmentID", appointmentID)]; gin.Body := body |}.


(** ** Vocabulary of the statements *)

(** The answer of a handler and the state it leaves behind. *)
Definition response (h : Handler) (cl : Client) : gin.Response := fst (h cl).
Definition client_after (h : Handler) (cl : Client) : Client := snd (h cl).
Definition database_after (h : Handler) (cl : Client) : Database := hospital (snd (h cl)).

(** The server answers the next [n] calls. *)
Definition answered (n : nat) (cl : Client) : Prop :=
  Forall (fun down => down = false) (firstn n cl.(outages)).

(** The client once [n] calls have been made and the database is [db]. *)
Definition after_calls (n : nat) (db : Database) (cl : Client) : Client :=
  {| hospital := db; outages := skipn n cl.(outages) |}.

(** [d] is the first document of [l] with the property [sel]: the one
    [FindOne] and [UpdateOne] pick. *)
Definition first_with {T : Type} (sel : T -> Prop) (l pre : list T) (d : T) (post : list T) : Prop :=
  l = pre ++ d :: post /\ sel d /\ forall x, In x pre -> ~ sel x.

(** Two versions of a collection that differ in one document at most. *)
Definition at_most_one_changed {T : Type} (l l' : list T) : Prop :=
  l' = l \/ exists pre d d' post, l = pre ++ d :: post /\ l' = pre ++ d' :: post.

(** Document by document: id and name are kept, and a document whose id
    is not [id] is kept whole. *)
Definition patients_framed (id : string) (l l' : list Patient.t) : Prop :=
  Forall2 (fun p p' =>
             Patient.ID p' = Patient.ID p /\ Patient.PName p' = Patient.PName p /\
             (Patient.ID p <> id -> p' = p)) l l'.

Definition doctors_framed (id : string) (l l' : list Doctor.t) : Prop :=
  Forall2 (fun d d' =>
             Doctor.ID d' = Doctor.ID d /\ Doctor.DName d' = Doctor.DName d /\
             (Doctor.ID d <> id -> d' = d)) l l'.

(** A handler that went from [db] to [db'] touched nothing but the
    schedule of one patient, or of one doctor, with the id [id]. *)
Definition touches_one_patient (id : string) (db db' : Database) : Prop :=
  db'.(users) = db.(users) /\
  db'.(doctor) = db.(doctor) /\
  patients_framed id db.(patients) db'.(patients) /\
  at_most_one_changed db.(patients) db'.(patients).

Definition touches_one_doctor (id : string) (db db' : Database) : Prop :=
  db'.(users) = db.(users) /\
  db'.(patients) = db.(patients) /\
  doctors_framed id db.(doctor) db'.(doctor) /\
  at_most_one_changed db.(doctor) db'.(doctor).

(** A handler went from [db] to [db'] and the patients are now [l],
    the other collections being what they were. *)
Definition patients_become (l : list Patient.t) (db db' : Database) : Prop :=
  db'.(patients) = l /\ db'.(users) = db.(users) /\ db'.(doctor) = db.(doctor).

(** Booking appends for every patient of the store: the reading of the
    booking property with no condition on the patient. *)
Definition booking_appends_for_every_patient (c : gin.Context string) (cl : Client) : Prop :=
  forall a pre p post,
    gin.ShouldBindJSON c = Ok a ->
    first_with (fun q => Patient.ID q = gin.Param c "id") cl.(hospital).(patients) pre p post ->
    (database_after (BookAppointment c) cl).(patients) =
    pre ++ Patient.mk (Patient.ID p) (Patient.PName p)
             (Slice (entries (Patient.Schedule p) ++ [a])) :: post.

(** Cancelling succeeds for every patient of the store: the reading of
    the cancelling property with no condition on the patient. *)
Definition cancelling_succeeds_for_every_patient (c : gin.Context unit) (cl : Client) : Prop :=
  forall pre p post,
    first_with (fun q => Patient.ID q = gin.Param c "id") cl.(hospital).(patients) pre p post ->
    response (CancelAppointment c) cl =
    gin.JSON http.StatusOK (gin.H "message" "Appointment canceled successfully").

(** Signup turns away every request with an empty password: the
    reading of "password non-empty" as a constraint that signup enforces. *)
Definition rejects_empty_password (hash : string -> Z -> Result string)
    (c : gin.Context User.t) (cl : Client) : Prop :=
  forall newUser,
    gin.ShouldBindJSON c = Ok newUser ->
    User.Password newUser = "" ->
    gin.Code (response (SignUp hash c) cl) <> http.StatusOK /\
    (database_after (SignUp hash c) cl).(users) = cl.(hospital).(users).

(** ** Sample data *)

(** A client whose server answers every call. *)
Definition quiet (db : Database) : Client := {| hospital := db; outages := [] |}.

Definition empty_hospital : Database := {| users := []; doctor := []; patients := [] |}.

Definition ward : Database := {|
  users := [User.mk "alice" "$2a$10$N9qo8uLOickgx2ZMRZoMye" "alice@clinic.example"];
  doctor := [Doctor.mk "d0" "Dr. Farouk" ["Sun"];
             Doctor.mk "d1" "Dr. Salem" ["Tue"; "Thu"; "Sat"];
             Doctor.mk "d1" "Dr. Salem (old)" ["Fri"]];
  patients := [Patient.mk "p0" "Hana" (Slice ["B7"]);
               Patient.mk "p1" "Omar" (Slice []);
               Patient.mk "p2" "Laila" (Slice ["A1"; "C3"; "A1"; "A1"])]
|}.

(** A database with a patient whose schedule is null, as the driver
    stores a [Patient] whose [Schedule] is a nil slice. *)
Definition admissions : Database := {|
  users := [];
  doctor := [];
  patients := [Patient.mk "p3" "Nour" Nil; Patient.mk "p4" "Sami" (Slice ["A1"])]
|}.

(** A stand-in for bcrypt in the examples.  Like bcrypt it has a hash
    for the empty password too. *)
Definition sample_hash (password : string) (cost : Z) : Result string :=
  Ok (String.append "$2a$10$" password).

Definition signup_request (u : User.t) : gin.Context User.t :=
  {| gin.Params := []; gin.Body := Ok u |}.

Definition create_request (d : Doctor.t) : gin.Context Doctor.t :=
  {| gin.Params := []; gin.Body := Ok d |}.

(** Tactics for the hypotheses of the statements on the sample data. *)
Ltac answered_quiet := unfold answered, quiet; simpl; constructor.

Ltac first_here :=
  split; [reflexivity|];
  split; [simpl; auto|];
  intros x Hx; simpl in Hx;
  repeat (destruct Hx as [<-|Hx]; [simpl; intuition discriminate|]);
  contradiction.

(** ** Vocabulary of the further properties *)

(** The handler answers [ok] exactly under [cond], and an answer other
    than [ok] comes with an unchanged database. *)
Definition succeeds_exactly_when (h : Handler) (ok : gin.Response) (cond : Prop)
    (cl : Client) : Prop :=
  (response h cl = ok <-> cond) /\
  (response h cl <> ok -> database_after h cl = cl.(hospital)).

(** The patient that the id names in [l], if there is one, has an array
    for schedule, not null. *)
Definition array_schedule_at (id : string) (l : list Patient.t) : Prop :=
  forall pre p post,
    first_with (fun q => Patient.ID q = id) l pre p post -> Patient.Schedule p <> Nil.

(** A bcrypt whose source of salt fails: no password gets a hash. *)
Definition failing_hash (password : string) (cost : Z) : Result string := Err ErrHash.

(** Settles one case of [succeeds_exactly_when] once the handler has run. *)
Ltac settle_success :=
  unfold succeeds_exactly_when; simpl; split;
  [ split;
    [ first [ discriminate | intros _; split; [eexists; reflexivity|assumption]
            | intros _; assumption ]
    | first [ reflexivity
            | intros [[? Hbound] ?]; first [discriminate Hbound|contradiction]
            | intros [? ?]; contradiction
            | intros ?; contradiction ] ]
  | first [ reflexivity | intros Hdiff; now destruct Hdiff | intros _; reflexivity ] ].

(** * Properties *)

(** ** The store calls *)

Lemma update_first_miss {T : Type} (selects : T -> bool) (f : T -> Result T) (l : list T) :
  (forall d, In d l -> selects d = false) ->
  update_first selects f l = Ok (0%Z, l).
Proof.
  induction l as [|d l IH]; intros Hno; simpl.
  - reflexivity.
  - rewrite (Hno d (or_introl eq_refl)).
    rewrite IH; [reflexivity|].
    intros x Hx. apply Hno. now right.
Qed.

Lemma update_first_hit {T : Type} (selects : T -> bool) (f : T -> Result T)
    (pre : list T) (d d' : T) (post : list T) :
  (forall x, In x pre -> selects x = false) ->
  selects d = true ->
  f d = Ok d' ->
  update_first selects f (pre ++ d :: post) = Ok (1%Z, pre ++ d' :: post).
Proof.
  intros Hpre Hd Hf.
  induction pre as [|x pre IH]; simpl.
  - now rewrite Hd, Hf.
  - rewrite (Hpre x (or_introl eq_refl)).
    rewrite IH; [reflexivity|].
    intros y Hy. apply Hpre. now right.
Qed.

Lemma update_first_inv {T : Type} (selects : T -> bool) (f : T -> Result T)
    (l : list T) (n : Z) (l' : list T) :
  update_first selects f l = Ok (n, l') ->
  (l' = l /\ forall d, In d l -> selects d = false) \/
  (exists pre d d' post,
      l = pre ++ d :: post /\ l' = pre ++ d' :: post /\
      (forall x, In x pre -> selects x = false) /\
      selects d = true /\ f d = Ok d').
Proof.
  revert n l'.
  induction l as [|x l IH]; simpl; intros n l' Hrun.
  - inversion Hrun; subst. left. split; [reflexivity|]. intros d [].
  - destruct (selects x) eqn:Hx.
    + destruct (f x) as [x'|e] eqn:Hf; [|discriminate].
      inversion Hrun; subst.
      right. exists [], x, x', l. simpl.
      repeat split; try assumption. intros y [].
    + destruct (update_first selects f l) as [[m l'']|e] eqn:Hrest; [|discriminate].
      inversion Hrun; subst.
      destruct (IH _ _ eq_refl) as [[Heq Hno]|(pre & d & d' & post & Hl & Hl' & Hpre & Hd & Hf)].
      * left. subst. split; [reflexivity|].
        intros d [<-|Hd]; [assumption|now apply Hno].
      * right. exists (x :: pre), d, d', post. subst. simpl.
        repeat split; try assumption.
        intros y [<-|Hy]; [assumption|now apply Hpre].
Qed.

Lemma update_first_at {T : Type} (selects : T -> bool) (f : T -> Result T)
    (pre : list T) (d : T) (post : list T) :
  (forall x, In x pre -> selects x = false) ->
  selects d = true ->
  update_first selects f (pre ++ d :: post) =
  match f d with
  | Ok d' => Ok (1%Z, pre ++ d' :: post)
  | Err e => Err e
  end.
Proof.
  intros Hpre Hd. induction pre as [|x pre IH]; simpl.
  - now rewrite Hd.
  - rewrite (Hpre x (or_introl eq_refl)).
    rewrite IH by (intros y Hy; apply Hpre; now right).
    now destruct (f d).
Qed.

(** ** The filters and updates of the handlers on the typed documents *)

Lemma selects_patient (id : string) (p : Patient.t) :
  matches [("id", Str id)] p = (Patient.ID p =? id).
Proof. unfold matches; cbn. apply andb_true_r. Qed.

Lemma selects_doctor (id : string) (d : Doctor.t) :
  matches [("id", Str id)] d = (Doctor.ID d =? id).
Proof. unfold matches; cbn. apply andb_true_r. Qed.

Lemma selects_user (name : string) (u : User.t) :
  matches [("username", Str name)] u = (User.Username u =? name).
Proof. unfold matches; cbn. apply andb_true_r. Qed.

Lemma selects_appointment (id a : string) (p : Patient.t) :
  matches [("id", Str id); ("schedule", Str a)] p =
  (Patient.ID p =? id) && existsb (fun x => x =? a) (entries (Patient.Schedule p)).
Proof.
  unfold matches; cbn. destruct (Patient.Schedule p); cbn;
    rewrite ?andb_true_r; reflexivity.
Qed.

(** What the two array operators do to a patient: on an array they
    append and remove, on null the server refuses them. *)
Lemma push_appointment_run (filter : M) (a : string) (p : Patient.t) :
  apply_update filter [("$push", Doc [("schedule", Str a)])] p =
  match Patient.Schedule p with
  | Slice s => Ok (Patient.mk (Patient.ID p) (Patient.PName p) (Slice (s ++ [a])))
  | Nil => Err (ErrWrite "the field must be an array")
  end.
Proof. cbn. now destruct (Patient.Schedule p). Qed.

Lemma pull_appointment_run (filter : M) (a : string) (p : Patient.t) :
  apply_update filter [("$pull", Doc [("schedule", Str a)])] p =
  match Patient.Schedule p with
  | Slice s => Ok (Patient.mk (Patient.ID p) (Patient.PName p) (Slice (pull a s)))
  | Nil => Err (ErrWrite "cannot apply $pull to a non-array value")
  end.
Proof. cbn. now destruct (Patient.Schedule p). Qed.

Lemma push_appointment (filter : M) (a : string) (p : Patient.t) (s : list string) :
  Patient.Schedule p = Slice s ->
  apply_update filter [("$push", Doc [("schedule", Str a)])] p =
  Ok (Patient.mk (Patient.ID p) (Patient.PName p) (Slice (s ++ [a]))).
Proof. intros Hs. now rewrite push_appointment_run, Hs. Qed.

Lemma pull_appointment (filter : M) (a : string) (p : Patient.t) (s : list string) :
  Patient.Schedule p = Slice s ->
  apply_update filter [("$pull", Doc [("schedule", Str a)])] p =
  Ok (Patient.mk (Patient.ID p) (Patient.PName p) (Slice (pull a s))).
Proof. intros Hs. now rewrite pull_appointment_run, Hs. Qed.

Lemma set_schedule (filter : M) (schedule : list string) (d : Doctor.t) :
  apply_update filter [("$set", Doc [("schedule", Strs schedule)])] d =
  Ok (Doctor.mk (Doctor.ID d) (Doctor.DName d) schedule).
Proof. reflexivity. Qed.

Lemma set_positional (id a s : string) (p : Patient.t) (i : nat) :
  first_index a (entries (Patient.Schedule p)) = Some i ->
  apply_update [("id", Str id); ("schedule", Str a)]
               [("$set", Doc [("schedule.$", Str s)])] p =
  Ok (Patient.mk (Patient.ID p) (Patient.PName p)
        (Slice (set_nth i s (entries (Patient.Schedule p))))).
Proof.
  intros Hi. cbn. destruct (Patient.Schedule p) as [|l]; cbn in *; [discriminate|].
  rewrite Hi. reflexivity.
Qed.

(** ** One call and its outcome *)

Lemma answered_next (n : nat) (cl : Client) :
  answered (S n) cl ->
  roundtrip cl = (true, after_calls 1 cl.(hospital) cl) /\
  answered n (after_calls 1 cl.(hospital) cl).
Proof.
  unfold answered, roundtrip, after_calls.
  destruct cl as [db [|down rest]]; simpl; intros Hans.
  - split; [reflexivity|]. destruct n; constructor.
  - inversion Hans; subst. split; [reflexivity|assumption].
Qed.

Lemma answered_up (cl : Client) :
  answered 1 cl -> negb (hd false cl.(outages)) = true.
Proof.
  unfold answered. destruct (outages cl) as [|down rest]; simpl; [reflexivity|].
  intros Hans. inversion Hans; subst. reflexivity.
Qed.

Lemma answered_fewer (n m : nat) (cl : Client) :
  m <= n -> answered n cl -> answered m cl.
Proof.
  unfold answered. generalize (outages cl) as l.
  revert n. induction m as [|m IH]; intros n l Hle Hn.
  - constructor.
  - destruct n as [|n]; [lia|].
    destruct l as [|x l]; simpl in *; [constructor|].
    inversion Hn; subst. constructor; [reflexivity|].
    apply (IH n); [lia|assumption].
Qed.

Lemma after_calls_twice (n m : nat) (db db' : Database) (cl : Client) :
  after_calls n db' (after_calls m db cl) = after_calls (m + n) db' cl.
Proof.
  unfold after_calls; simpl. f_equal.
  rewrite skipn_skipn. f_equal. lia.
Qed.

Lemma answered_after (n m : nat) (db : Database) (cl : Client) :
  answered (m + n) cl -> answered n (after_calls m db cl).
Proof.
  unfold answered, after_calls; simpl.
  revert n. generalize (outages cl) as l. clear.
  induction m as [|m IH]; intros l n H.
  - exact H.
  - destruct l as [|x l]; simpl in *.
    + destruct n; constructor.
    + inversion H; subst. now apply IH.
Qed.

Lemma store_docs_patients (db : Database) :
  store patients_collection db.(patients) db = db.
Proof. now destruct db. Qed.

Lemma store_docs_doctor (db : Database) :
  store doctor_collection db.(doctor) db = db.
Proof. now destruct db. Qed.

Lemma UpdateOne_answered {T : Type} `{Document T}
    (coll : Collection T) (filter update : M) (cl : Client) :
  answered 1 cl ->
  UpdateOne coll filter update cl =
  match update_first (matches filter) (apply_update filter update) (docs coll cl.(hospital)) with
  | Ok (n, l') => (Ok {| MatchedCount := n |}, after_calls 1 (store coll l' cl.(hospital)) cl)
  | Err e => (Err e, after_calls 1 cl.(hospital) cl)
  end.
Proof.
  intros Hans. destruct (answered_next 0 cl Hans) as [Hrt _].
  unfold UpdateOne, bind. rewrite Hrt.
  unfold read, write, ret; simpl.
  destruct (update_first _ _ _) as [[n l']|e]; reflexivity.
Qed.

(** Whatever the server does, [UpdateOne] leaves the database as it was
    or rewrites the first document the filter selects. *)
Lemma UpdateOne_effect {T : Type} `{Document T}
    (coll : Collection T) (filter update : M) (cl : Client) :
  (forall db, store coll (docs coll db) db = db) ->
  hospital (snd (UpdateOne coll filter update cl)) = cl.(hospital) \/
  exists pre d d' post,
    docs coll cl.(hospital) = pre ++ d :: post /\
    hospital (snd (UpdateOne coll filter update cl)) =
      store coll (pre ++ d' :: post) cl.(hospital) /\
    (forall x, In x pre -> matches filter x = false) /\
    matches filter d = true /\
    apply_update filter update d = Ok d'.
Proof.
  intros Hid.
  unfold UpdateOne, bind, roundtrip, read, write, ret; simpl.
  destruct (negb (hd false (outages cl))); simpl; [|now left].
  destruct (update_first _ _ _) as [[n l']|e] eqn:Hrun; simpl; [|now left].
  destruct (update_first_inv _ _ _ _ _ Hrun)
    as [[-> _]|(pre & d & d' & post & Hl & -> & Hpre & Hd & Hf)].
  - left. apply Hid.
  - right. exists pre, d, d', post. repeat split; assumption.
Qed.

Lemma UpdateOne_hit {T : Type} `{Document T}
    (coll : Collection T) (filter update : M) (cl : Client)
    (pre : list T) (d d' : T) (post : list T) :
  answered 1 cl ->
  docs coll cl.(hospital) = pre ++ d :: post ->
  (forall x, In x pre -> matches filter x = false) ->
  matches filter d = true ->
  apply_update filter update d = Ok d' ->
  UpdateOne coll filter update cl =
  (Ok {| MatchedCount := 1 |},
   after_calls 1 (store coll (pre ++ d' :: post) cl.(hospital)) cl).
Proof.
  intros Hans Hl Hpre Hd Hf.
  rewrite UpdateOne_answered by assumption.
  rewrite Hl, (update_first_hit _ _ pre d d' post Hpre Hd Hf).
  reflexivity.
Qed.

Lemma UpdateOne_miss {T : Type} `{Document T}
    (coll : Collection T) (filter update : M) (cl : Client) :
  answered 1 cl ->
  store coll (docs coll cl.(hospital)) cl.(hospital) = cl.(hospital) ->
  (forall x, In x (docs coll cl.(hospital)) -> matches filter x = false) ->
  UpdateOne coll filter update cl =
  (Ok {| MatchedCount := 0 |}, after_calls 1 cl.(hospital) cl).
Proof.
  intros Hans Hid Hno.
  rewrite UpdateOne_answered by assumption.
  rewrite (update_first_miss _ _ _ Hno), Hid.
  reflexivity.
Qed.

Lemma UpdateOne_refused {T : Type} `{Document T}
    (coll : Collection T) (filter update : M) (cl : Client)
    (pre : list T) (d : T) (post : list T) (e : error) :
  answered 1 cl ->
  docs coll cl.(hospital) = pre ++ d :: post ->
  (forall x, In x pre -> matches filter x = false) ->
  matches filter d = true ->
  apply_update filter update d = Err e ->
  UpdateOne coll filter update cl = (Err e, after_calls 1 cl.(hospital) cl).
Proof.
  intros Hans Hl Hpre Hd Hf.
  rewrite UpdateOne_answered by assumption.
  now rewrite Hl, (update_first_at _ _ pre d post Hpre Hd), Hf.
Qed.

Lemma patients_become_store (l : list Patient.t) (db : Database) :
  patients_become l db (store patients_collection l db).
Proof. repeat split. Qed.

Lemma patients_become_same (db : Database) :
  patients_become db.(patients) db db.
Proof. repeat split. Qed.

(** ** Booking *)

Lemma first_patient_selected (id : string) (l pre : list Patient.t)
    (p : Patient.t) (post : list Patient.t) :
  first_with (fun q => Patient.ID q = id) l pre p post ->
  (forall x, In x pre -> matches [("id", Str id)] x = false) /\
  matches [("id", Str id)] p = true.
Proof.
  intros (_ & Hp & Hpre). split.
  - intros x Hx. rewrite selects_patient. apply String.eqb_neq. now apply Hpre.
  - rewrite selects_patient. now apply String.eqb_eq.
Qed.

Lemma BookAppointment_hit (c : gin.Context string) (cl : Client) (a : string)
    (pre : list Patient.t) (p : Patient.t) (post : list Patient.t) (s : list string) :
  gin.ShouldBindJSON c = Ok a ->
  answered 1 cl ->
  first_with (fun q => Patient.ID q = gin.Param c "id") cl.(hospital).(patients) pre p post ->
  Patient.Schedule p = Slice s ->
  BookAppointment c cl =
  (gin.JSON http.StatusOK (gin.H "message" "Appointment booked successfully"),
   after_calls 1
     (store patients_collection
        (pre ++ Patient.mk (Patient.ID p) (Patient.PName p) (Slice (s ++ [a])) :: post)
        cl.(hospital)) cl).
Proof.
  intros Hbody Hans Hfirst Hs.
  destruct (first_patient_selected _ _ _ _ _ Hfirst) as [Hpre Hp].
  destruct Hfirst as (Hl & _ & _).
  unfold BookAppointment. rewrite Hbody. unfold bind.
  rewrite (UpdateOne_hit patients_collection _ _ cl pre p _ post Hans Hl Hpre Hp
             (push_appointment _ a p s Hs)).
  reflexivity.
Qed.

Lemma BookAppointment_refused (c : gin.Context string) (cl : Client) (a : string)
    (pre : list Patient.t) (p : Patient.t) (post : list Patient.t) :
  gin.ShouldBindJSON c = Ok a ->
  answered 1 cl ->
  first_with (fun q => Patient.ID q = gin.Param c "id") cl.(hospital).(patients) pre p post ->
  Patient.Schedule p = Nil ->
  BookAppointment c cl =
  (gin.JSON http.StatusInternalServerError (gin.H "error" "Error booking appointment"),
   after_calls 1 cl.(hospital) cl).
Proof.
  intros Hbody Hans Hfirst Hnil.
  destruct (first_patient_selected _ _ _ _ _ Hfirst) as [Hpre Hp].
  destruct Hfirst as (Hl & _ & _).
  unfold BookAppointment. rewrite Hbody. unfold bind.
  rewrite (UpdateOne_refused patients_collection _ _ cl pre p post
             (ErrWrite "the field must be an array") Hans Hl Hpre Hp).
  - reflexivity.
  - now rewrite push_appointment_run, Hnil.
Qed.

(** C4, as the code has it.  For the patient the path names, the first
    document of the collection with that id, whose schedule is an array,
    the empty one included, booking appends the supplied appointment to
    the end of the schedule: the entries already there stay in their
    order and the other documents and collections stay as they are.  Two
    bookings in a row, of [a] then of [b], leave the schedule followed by
    [a; b], so ["A1"] then ["A2"] on an empty schedule give
    [["A1"; "A2"]].  On a patient whose schedule is null the server
    refuses the booking: the answer is a 500 with "Error booking
    appointment" and the database is unchanged. *)
Theorem C4_book_appends (c1 c2 : gin.Context string) (cl : Client) (a b : string)
    (pre : list Patient.t) (p : Patient.t) (post : list Patient.t) :
  gin.ShouldBindJSON c1 = Ok a ->
  gin.ShouldBindJSON c2 = Ok b ->
  gin.Param c2 "id" = gin.Param c1 "id" ->
  answered 2 cl ->
  first_with (fun q => Patient.ID q = gin.Param c1 "id") cl.(hospital).(patients) pre p post ->
  let cl1 := client_after (BookAppointment c1) cl in
  (forall s,
      Patient.Schedule p = Slice s ->
      let booked x := Patient.mk (Patient.ID p) (Patient.PName p) (Slice (s ++ x)) in
      response (BookAppointment c1) cl =
        gin.JSON http.StatusOK (gin.H "message" "Appointment booked successfully") /\
      patients_become (pre ++ booked [a] :: post) cl.(hospital) cl1.(hospital) /\
      response (BookAppointment c2) cl1 =
        gin.JSON http.StatusOK (gin.H "message" "Appointment booked successfully") /\
      patients_become (pre ++ booked [a; b] :: post) cl.(hospital)
        (database_after (BookAppointment c2) cl1)) /\
  (Patient.Schedule p = Nil ->
   response (BookAppointment c1) cl =
     gin.JSON http.StatusInternalServerError (gin.H "error" "Error booking appointment") /\
   cl1.(hospital) = cl.(hospital)).
Proof.
  intros Ha Hb Hid Hans Hfirst cl1.
  assert (Hans1 : answered 1 cl) by (apply (answered_fewer 2); [lia|assumption]).
  split.
  - intros s Hs booked.
    pose proof (BookAppointment_hit c1 cl a pre p post s Ha Hans1 Hfirst Hs) as H1.
    assert (Hcl1 : cl1 = after_calls 1
              (store patients_collection (pre ++ booked [a] :: post) cl.(hospital)) cl).
    { unfold cl1, client_after. now rewrite H1. }
    assert (Hfirst1 : first_with (fun q => Patient.ID q = gin.Param c2 "id")
              cl1.(hospital).(patients) pre (booked [a]) post).
    { rewrite Hcl1, Hid. destruct Hfirst as (_ & Hp & Hpre).
      split; [reflexivity|]. split; [exact Hp|exact Hpre]. }
    assert (Hans2 : answered 1 cl1).
    { rewrite Hcl1. now apply (answered_after 1 1). }
    pose proof (BookAppointment_hit c2 cl1 b pre (booked [a]) post (s ++ [a])
                  Hb Hans2 Hfirst1 eq_refl) as H2.
    unfold response, database_after. rewrite H1, H2. simpl.
    split; [reflexivity|]. split; [rewrite Hcl1; apply patients_become_store|].
    split; [reflexivity|].
    rewrite Hcl1. simpl. unfold booked. rewrite <- app_assoc. simpl.
    repeat split.
  - intros Hnil.
    unfold cl1, client_after, response.
    now rewrite (BookAppointment_refused c1 cl a pre p post Ha Hans1 Hfirst Hnil).
Qed.

(** ** Cancelling *)

Lemma CancelAppointment_hit (c : gin.Context unit) (cl : Client)
    (pre : list Patient.t) (p : Patient.t) (post : list Patient.t) (s : list string) :
  answered 1 cl ->
  first_with (fun q => Patient.ID q = gin.Param c "id") cl.(hospital).(patients) pre p post ->
  Patient.Schedule p = Slice s ->
  CancelAppointment c cl =
  (gin.JSON http.StatusOK (gin.H "message" "Appointment canceled successfully"),
   after_calls 1
     (store patients_collection
        (pre ++ Patient.mk (Patient.ID p) (Patient.PName p)
                  (Slice (pull (gin.Param c "appointmentID") s)) :: post)
        cl.(hospital)) cl).
Proof.
  intros Hans Hfirst Hs.
  destruct (first_patient_selected _ _ _ _ _ Hfirst) as [Hpre Hp].
  destruct Hfirst as (Hl & _ & _).
  unfold CancelAppointment, bind.
  rewrite (UpdateOne_hit patients_collection _ _ cl pre p _ post Hans Hl Hpre Hp
             (pull_appointment _ _ p s Hs)).
  reflexivity.
Qed.

Lemma CancelAppointment_refused (c : gin.Context unit) (cl : Client)
    (pre : list Patient.t) (p : Patient.t) (post : list Patient.t) :
  answered 1 cl ->
  first_with (fun q => Patient.ID q = gin.Param c "id") cl.(hospital).(patients) pre p post ->
  Patient.Schedule p = Nil ->
  CancelAppointment c cl =
  (gin.JSON http.StatusInternalServerError (gin.H "error" "Error canceling appointment"),
   after_calls 1 cl.(hospital) cl).
Proof.
  intros Hans Hfirst Hnil.
  destruct (first_patient_selected _ _ _ _ _ Hfirst) as [Hpre Hp].
  destruct Hfirst as (Hl & _ & _).
  unfold CancelAppointment, bind.
  rewrite (UpdateOne_refused patients_collection _ _ cl pre p post
             (ErrWrite "cannot apply $pull to a non-array value") Hans Hl Hpre Hp).
  - reflexivity.
  - now rewrite pull_appointment_run, Hnil.
Qed.

Lemma patient_eta (p : Patient.t) :
  Patient.mk (Patient.ID p) (Patient.PName p) (Patient.Schedule p) = p.
Proof. now destruct p. Qed.

Lemma pull_absent (a : string) (s : list string) :
  ~ In a s -> pull a s = s.
Proof.
  unfold pull. induction s as [|x s IH]; simpl; intros Hno.
  - reflexivity.
  - destruct (x =? a) eqn:Hx; simpl.
    + apply String.eqb_eq in Hx. exfalso. apply Hno. now left.
    + f_equal. apply IH. intros Hin. apply Hno. now right.
Qed.

Lemma pull_count (a x : string) (s : list string) :
  x <> a -> count_occ string_dec (pull a s) x = count_occ string_dec s x.
Proof.
  intros Hx. unfold pull.
  induction s as [|y s IH]; simpl.
  - reflexivity.
  - destruct (y =? a) eqn:Hy; simpl.
    + apply String.eqb_eq in Hy. subst y.
      destruct (string_dec a x) as [->|_]; [contradiction|assumption].
    + destruct (string_dec y x); now rewrite IH.
Qed.

(** C2, as the code has it.  For the patient the path names, whose
    schedule is an array, cancelling removes from the schedule every
    element equal to the appointment identifier of the path, all
    occurrences at once, and keeps the other elements in their order and
    number; it answers with success whether or not the identifier was in
    the schedule, and when it was not the database is unchanged.  On a
    patient whose schedule is null the server refuses the cancellation:
    the answer is a 500 with "Error canceling appointment" and the
    database is unchanged. *)
Theorem C2_cancel_removes_every_occurrence (c : gin.Context unit) (cl : Client)
    (pre : list Patient.t) (p : Patient.t) (post : list Patient.t) :
  answered 1 cl ->
  first_with (fun q => Patient.ID q = gin.Param c "id") cl.(hospital).(patients) pre p post ->
  let a := gin.Param c "appointmentID" in
  (forall s,
      Patient.Schedule p = Slice s ->
      let s' := List.filter (fun x => negb (x =? a)) s in
      response (CancelAppointment c) cl =
        gin.JSON http.StatusOK (gin.H "message" "Appointment canceled successfully") /\
      patients_become
        (pre ++ Patient.mk (Patient.ID p) (Patient.PName p) (Slice s') :: post)
        cl.(hospital) (database_after (CancelAppointment c) cl) /\
      ~ In a s' /\
      (forall x, x <> a -> count_occ string_dec s' x = count_occ string_dec s x) /\
      (~ In a s -> database_after (CancelAppointment c) cl = cl.(hospital))) /\
  (Patient.Schedule p = Nil ->
   response (CancelAppointment c) cl =
     gin.JSON http.StatusInternalServerError (gin.H "error" "Error canceling appointment") /\
   database_after (CancelAppointment c) cl = cl.(hospital)).
Proof.
  intros Hans Hfirst a. split.
  - intros s Hs s'.
    pose proof (CancelAppointment_hit c cl pre p post s Hans Hfirst Hs) as Hrun.
    unfold response, database_after. rewrite Hrun. simpl.
    split; [reflexivity|]. split; [repeat split|]. split; [|split].
    + unfold s'. intros Hin. apply filter_In in Hin. destruct Hin as [_ Hneq].
      now rewrite String.eqb_refl in Hneq.
    + intros x Hx. now apply pull_count.
    + intros Hno. fold a. rewrite (pull_absent a _ Hno), <- Hs, patient_eta.
      destruct Hfirst as (Hl & _ & _).
      rewrite <- Hl. now destruct (hospital cl).
  - intros Hnil. unfold response, database_after.
    now rewrite (CancelAppointment_refused c cl pre p post Hans Hfirst Hnil).
Qed.

(** ** Updating *)

Lemma contains_In (a : string) (s : list string) :
  existsb (fun x => x =? a) s = true <-> In a s.
Proof.
  rewrite existsb_exists. split.
  - intros (x & Hx & Heq). apply String.eqb_eq in Heq. now subst.
  - intros Hin. exists a. split; [assumption|apply String.eqb_refl].
Qed.

Lemma first_index_split (a : string) (s1 s2 : list string) :
  ~ In a s1 -> first_index a (s1 ++ a :: s2) = Some (length s1).
Proof.
  induction s1 as [|x s1 IH]; simpl; intros Hno.
  - now rewrite String.eqb_refl.
  - destruct (x =? a) eqn:Hx.
    + apply String.eqb_eq in Hx. exfalso. apply Hno. now left.
    + rewrite IH; [reflexivity|]. intros Hin. apply Hno. now right.
Qed.

Lemma set_nth_split (s : string) (s1 : list string) (x : string) (s2 : list string) :
  set_nth (length s1) s (s1 ++ x :: s2) = s1 ++ s :: s2.
Proof.
  induction s1 as [|y s1 IH]; simpl; [reflexivity|now rewrite IH].
Qed.

Lemma first_index_least (a : string) (s : list string) (i : nat) :
  nth_error s i = Some a ->
  (forall k, k < i -> nth_error s k <> Some a) ->
  first_index a s = Some i.
Proof.
  revert i. induction s as [|x s IH]; intros i Hi Hleast.
  - destruct i; discriminate.
  - destruct i as [|i]; simpl in *.
    + inversion Hi; subst. now rewrite String.eqb_refl.
    + destruct (x =? a) eqn:Hx.
      * apply String.eqb_eq in Hx. subst x.
        exfalso. apply (Hleast 0); [lia|reflexivity].
      * rewrite (IH i); [reflexivity|assumption|].
        intros k Hk. apply (Hleast (S k)). lia.
Qed.

Lemma set_nth_length (i : nat) (s : string) (l : list string) :
  length (set_nth i s l) = length l.
Proof.
  revert i. induction l as [|x l IH]; intros [|i]; simpl; try reflexivity.
  now rewrite IH.
Qed.

Lemma set_nth_same (i : nat) (s : string) (l : list string) :
  i < length l -> nth_error (set_nth i s l) i = Some s.
Proof.
  revert i. induction l as [|x l IH]; intros [|i]; simpl; intros Hi; try lia.
  - reflexivity.
  - apply IH. lia.
Qed.

Lemma set_nth_other (i k : nat) (s : string) (l : list string) :
  k <> i -> nth_error (set_nth i s l) k = nth_error l k.
Proof.
  revert i k. induction l as [|x l IH]; intros [|i] [|k] Hk; simpl; try reflexivity.
  - contradiction.
  - apply IH. lia.
Qed.

Lemma first_appointment_selected (id a : string) (l pre : list Patient.t)
    (p : Patient.t) (post : list Patient.t) :
  first_with (fun q => Patient.ID q = id /\ In a (entries (Patient.Schedule q))) l pre p post ->
  (forall x, In x pre -> matches [("id", Str id); ("schedule", Str a)] x = false) /\
  matches [("id", Str id); ("schedule", Str a)] p = true.
Proof.
  intros (_ & [Hid Hin] & Hpre). split.
  - intros x Hx. rewrite selects_appointment.
    apply andb_false_iff.
    destruct (Patient.ID x =? id) eqn:Hx1; [right|now left].
    apply String.eqb_eq in Hx1.
    destruct (existsb _ _) eqn:Hx2; [|reflexivity].
    apply contains_In in Hx2. exfalso. now apply (Hpre x Hx).
  - rewrite selects_appointment. apply andb_true_iff. split.
    + now apply String.eqb_eq.
    + now apply contains_In.
Qed.

Lemma UpdateAppointment_hit (c : gin.Context string) (cl : Client) (s : string)
    (pre : list Patient.t) (p : Patient.t) (post : list Patient.t) (i : nat) :
  gin.ShouldBindJSON c = Ok s ->
  answered 1 cl ->
  first_with (fun q => Patient.ID q = gin.Param c "id" /\
                       In (gin.Param c "appointmentID") (entries (Patient.Schedule q)))
             cl.(hospital).(patients) pre p post ->
  first_index (gin.Param c "appointmentID") (entries (Patient.Schedule p)) = Some i ->
  UpdateAppointment c cl =
  (gin.JSON http.StatusOK (gin.H "message" "Appointment updated successfully"),
   after_calls 1
     (store patients_collection
        (pre ++ Patient.mk (Patient.ID p) (Patient.PName p)
                  (Slice (set_nth i s (entries (Patient.Schedule p)))) :: post)
        cl.(hospital)) cl).
Proof.
  intros Hbody Hans Hfirst Hi.
  destruct (first_appointment_selected _ _ _ _ _ _ Hfirst) as [Hpre Hp].
  destruct Hfirst as (Hl & _ & _).
  unfold UpdateAppointment. rewrite Hbody. unfold bind.
  rewrite (UpdateOne_hit patients_collection _ _ cl pre p _ post Hans Hl Hpre Hp
             (set_positional _ _ s p i Hi)).
  reflexivity.
Qed.

Lemma UpdateAppointment_miss (c : gin.Context string) (cl : Client) (s : string) :
  gin.ShouldBindJSON c = Ok s ->
  answered 1 cl ->
  (forall q, In q cl.(hospital).(patients) -> Patient.ID q = gin.Param c "id" ->
             ~ In (gin.Param c "appointmentID") (entries (Patient.Schedule q))) ->
  UpdateAppointment c cl =
  (gin.JSON http.StatusOK (gin.H "message" "Appointment updated successfully"),
   after_calls 1 cl.(hospital) cl).
Proof.
  intros Hbody Hans Hno.
  unfold UpdateAppointment. rewrite Hbody. unfold bind.
  rewrite (UpdateOne_miss patients_collection _ _ cl Hans (store_docs_patients _)).
  - reflexivity.
  - intros q Hq. rewrite selects_appointment.
    apply andb_false_iff.
    destruct (Patient.ID q =? gin.Param c "id") eqn:Hid; [right|now left].
    apply String.eqb_eq in Hid.
    destruct (existsb _ _) eqn:Hin; [|reflexivity].
    apply contains_In in Hin. exfalso. now apply (Hno q Hq).
Qed.

Lemma first_index_found (a : string) (s : list string) :
  In a s -> exists i, first_index a s = Some i.
Proof.
  induction s as [|x s IH]; simpl; intros Hin; [contradiction|].
  destruct (x =? a) eqn:Hx; [now exists 0|].
  destruct Hin as [->|Hin]; [now rewrite String.eqb_refl in Hx|].
  destruct (IH Hin) as [i ->]. now exists (S i).
Qed.

Lemma update_first_total {T : Type} (selects : T -> bool) (f : T -> Result T) (l : list T) :
  (forall d, selects d = true -> exists d', f d = Ok d') ->
  exists n l', update_first selects f l = Ok (n, l').
Proof.
  intros Htotal. induction l as [|d l (n & l' & IH)]; simpl.
  - now exists 0%Z, [].
  - destruct (selects d) eqn:Hd.
    + destruct (Htotal d Hd) as [d' ->]. now exists 1%Z, (d' :: l).
    + rewrite IH. now exists n, (d :: l').
Qed.

Lemma UpdateAppointment_succeeds (c : gin.Context string) (cl : Client) (s : string) :
  gin.ShouldBindJSON c = Ok s ->
  answered 1 cl ->
  response (UpdateAppointment c) cl =
  gin.JSON http.StatusOK (gin.H "message" "Appointment updated successfully").
Proof.
  intros Hbody Hans.
  unfold response, UpdateAppointment. rewrite Hbody. unfold bind.
  rewrite UpdateOne_answered by assumption.
  destruct (update_first_total
              (matches [("id", Str (gin.Param c "id"));
                        ("schedule", Str (gin.Param c "appointmentID"))])
              (apply_update [("id", Str (gin.Param c "id"));
                             ("schedule", Str (gin.Param c "appointmentID"))]
                            [("$set", Doc [("schedule.$", Str s)])])
              (docs patients_collection cl.(hospital))) as (n & l' & ->).
  - intros p Hp. rewrite selects_appointment in Hp.
    apply andb_true_iff in Hp. destruct Hp as [_ Hin].
    apply contains_In in Hin.
    destruct (first_index_found _ _ Hin) as [i Hi].
    rewrite (set_positional _ _ s p i Hi). eexists; reflexivity.
  - reflexivity.
Qed.

(** C3. When the schedule of the patient the path names holds the
    appointment identifier of the path, updating puts the new value in
    the place of the matching element (the first one, [s1] holding none)
    and leaves the other entries, the other documents and the other
    collections as they are.  When no document with that id holds the
    identifier, nothing is written.  Either way the answer is success. *)
Theorem C3_update_replaces_matching_entry (c : gin.Context string) (cl : Client) (s : string) :
  gin.ShouldBindJSON c = Ok s ->
  answered 1 cl ->
  let id := gin.Param c "id" in
  let a := gin.Param c "appointmentID" in
  response (UpdateAppointment c) cl =
    gin.JSON http.StatusOK (gin.H "message" "Appointment updated successfully") /\
  (forall pre p post s1 s2,
      first_with (fun q => Patient.ID q = id /\ In a (entries (Patient.Schedule q)))
                 cl.(hospital).(patients) pre p post ->
      Patient.Schedule p = Slice (s1 ++ a :: s2) ->
      ~ In a s1 ->
      patients_become
        (pre ++ Patient.mk (Patient.ID p) (Patient.PName p) (Slice (s1 ++ s :: s2)) :: post)
        cl.(hospital) (database_after (UpdateAppointment c) cl)) /\
  ((forall q, In q cl.(hospital).(patients) -> Patient.ID q = id ->
              ~ In a (entries (Patient.Schedule q))) ->
   database_after (UpdateAppointment c) cl = cl.(hospital)).
Proof.
  intros Hbody Hans id a.
  split; [now apply (UpdateAppointment_succeeds c cl s)|]. split.
  - intros pre p post s1 s2 Hfirst Hsched Hs1.
    assert (Hi : first_index a (entries (Patient.Schedule p)) = Some (length s1)).
    { rewrite Hsched. simpl. now apply first_index_split. }
    unfold database_after.
    rewrite (UpdateAppointment_hit c cl s pre p post _ Hbody Hans Hfirst Hi).
    simpl. rewrite Hsched. simpl. rewrite set_nth_split. repeat split.
  - intros Hno. unfold database_after.
    now rewrite (UpdateAppointment_miss c cl s Hbody Hans Hno).
Qed.

(** C8. With several elements of the schedule equal to the appointment
    identifier, updating rewrites the one of lowest index [i] only: the
    new schedule has the new value at [i] and the old entry at every
    other index, so each later occurrence of the identifier is still
    there. *)
Theorem C8_update_first_occurrence_only (c : gin.Context string) (cl : Client) (s : string)
    (pre : list Patient.t) (p : Patient.t) (post : list Patient.t) (i : nat) :
  gin.ShouldBindJSON c = Ok s ->
  answered 1 cl ->
  let a := gin.Param c "appointmentID" in
  let old := entries (Patient.Schedule p) in
  first_with (fun q => Patient.ID q = gin.Param c "id" /\ In a (entries (Patient.Schedule q)))
             cl.(hospital).(patients) pre p post ->
  nth_error old i = Some a ->
  (forall k, k < i -> nth_error old k <> Some a) ->
  exists s',
    patients_become
      (pre ++ Patient.mk (Patient.ID p) (Patient.PName p) (Slice s') :: post)
      cl.(hospital) (database_after (UpdateAppointment c) cl) /\
    length s' = length old /\
    nth_error s' i = Some s /\
    (forall k, k <> i -> nth_error s' k = nth_error old k) /\
    (forall j, i < j -> nth_error old j = Some a -> nth_error s' j = Some a).
Proof.
  intros Hbody Hans a old Hfirst Hi Hleast.
  pose proof (first_index_least a _ i Hi Hleast) as Hidx.
  exists (set_nth i s old).
  unfold database_after.
  rewrite (UpdateAppointment_hit c cl s pre p post i Hbody Hans Hfirst Hidx).
  simpl. split; [repeat split|]. split; [apply set_nth_length|]. split; [|split].
  - apply set_nth_same. apply nth_error_Some. now rewrite Hi.
  - intros k Hk. now apply set_nth_other.
  - intros j Hj Hlater. rewrite set_nth_other by lia. assumption.
Qed.

(** ** A patient id with no document *)

Lemma no_patient_selected (id : string) (l : list Patient.t) :
  (forall q, In q l -> Patient.ID q <> id) ->
  forall x, In x l -> matches [("id", Str id)] x = false.
Proof.
  intros Hno x Hx. rewrite selects_patient. apply String.eqb_neq. now apply Hno.
Qed.

(** C9. For a patient id that no document of [patients] carries, booking,
    updating and cancelling all answer with success and leave the whole
    database as it was: no document is created and no schedule changes. *)
Theorem C9_unknown_patient_is_a_successful_noop (cl : Client) (id : string) :
  (forall q, In q cl.(hospital).(patients) -> Patient.ID q <> id) ->
  answered 1 cl ->
  (forall (c : gin.Context string) (a : string),
      gin.Param c "id" = id -> gin.ShouldBindJSON c = Ok a ->
      response (BookAppointment c) cl =
        gin.JSON http.StatusOK (gin.H "message" "Appointment booked successfully") /\
      database_after (BookAppointment c) cl = cl.(hospital)) /\
  (forall (c : gin.Context string) (s : string),
      gin.Param c "id" = id -> gin.ShouldBindJSON c = Ok s ->
      response (UpdateAppointment c) cl =
        gin.JSON http.StatusOK (gin.H "message" "Appointment updated successfully") /\
      database_after (UpdateAppointment c) cl = cl.(hospital)) /\
  (forall (c : gin.Context unit),
      gin.Param c "id" = id ->
      response (CancelAppointment c) cl =
        gin.JSON http.StatusOK (gin.H "message" "Appointment canceled successfully") /\
      database_after (CancelAppointment c) cl = cl.(hospital)).
Proof.
  intros Hno Hans. split; [|split].
  - intros c a Hid Hbody.
    unfold response, database_after, BookAppointment. rewrite Hbody. unfold bind.
    rewrite (UpdateOne_miss patients_collection _ _ cl Hans (store_docs_patients _)).
    + now split.
    + rewrite Hid. now apply no_patient_selected.
  - intros c s Hid Hbody.
    unfold response, database_after.
    rewrite (UpdateAppointment_miss c cl s Hbody Hans).
    + now split.
    + intros q Hq Hqid. rewrite Hid in Hqid. now destruct (Hno q Hq).
  - intros c Hid.
    unfold response, database_after, CancelAppointment, bind.
    rewrite (UpdateOne_miss patients_collection _ _ cl Hans (store_docs_patients _)).
    + now split.
    + rewrite Hid. now apply no_patient_selected.
Qed.

(** ** What the schedule operations leave alone *)

Lemma Forall2_same {T : Type} (R : T -> T -> Prop) (l : list T) :
  (forall x, R x x) -> Forall2 R l l.
Proof. intros Hrefl. induction l; constructor; auto. Qed.

Lemma Forall2_rewrite_one {T : Type} (R : T -> T -> Prop)
    (pre : list T) (d d' : T) (post : list T) :
  (forall x, R x x) -> R d d' -> Forall2 R (pre ++ d :: post) (pre ++ d' :: post).
Proof.
  intros Hrefl Hd. apply Forall2_app.
  - now apply Forall2_same.
  - constructor; [assumption|now apply Forall2_same].
Qed.

Lemma touches_one_patient_refl (id : string) (db : Database) :
  touches_one_patient id db db.
Proof.
  repeat split; try reflexivity.
  - apply Forall2_same. intros p. repeat split; reflexivity.
  - now left.
Qed.

Lemma touches_one_doctor_refl (id : string) (db : Database) :
  touches_one_doctor id db db.
Proof.
  repeat split; try reflexivity.
  - apply Forall2_same. intros d. repeat split; reflexivity.
  - now left.
Qed.

Lemma patients_update_framed (filter update : M) (cl : Client) (id : string)
    (r : Result UpdateResult) (cl' : Client) :
  (forall p, matches filter p = true -> Patient.ID p = id) ->
  (forall p p', apply_update filter update p = Ok p' ->
                Patient.ID p' = Patient.ID p /\ Patient.PName p' = Patient.PName p) ->
  UpdateOne patients_collection filter update cl = (r, cl') ->
  touches_one_patient id cl.(hospital) cl'.(hospital).
Proof.
  intros Hsel Hkeep Hrun.
  destruct (UpdateOne_effect patients_collection filter update cl store_docs_patients)
    as [Hsame|(pre & p & p' & post & Hl & Hdb & _ & Hp & Hf)];
    rewrite Hrun in *; simpl in *.
  - rewrite Hsame. apply touches_one_patient_refl.
  - rewrite Hdb. unfold touches_one_patient. simpl in *. rewrite Hl.
    destruct (Hkeep p p' Hf) as [Hid Hname].
    repeat split; try reflexivity.
    + apply Forall2_rewrite_one.
      * intros x. repeat split; reflexivity.
      * repeat split; try assumption.
        intros Hother. destruct Hother. now apply Hsel.
    + right. now exists pre, p, p', post.
Qed.

Lemma doctors_update_framed (filter update : M) (cl : Client) (id : string)
    (r : Result UpdateResult) (cl' : Client) :
  (forall d, matches filter d = true -> Doctor.ID d = id) ->
  (forall d d', apply_update filter update d = Ok d' ->
                Doctor.ID d' = Doctor.ID d /\ Doctor.DName d' = Doctor.DName d) ->
  UpdateOne doctor_collection filter update cl = (r, cl') ->
  touches_one_doctor id cl.(hospital) cl'.(hospital).
Proof.
  intros Hsel Hkeep Hrun.
  destruct (UpdateOne_effect doctor_collection filter update cl store_docs_doctor)
    as [Hsame|(pre & d & d' & post & Hl & Hdb & _ & Hd & Hf)];
    rewrite Hrun in *; simpl in *.
  - rewrite Hsame. apply touches_one_doctor_refl.
  - rewrite Hdb. unfold touches_one_doctor. simpl in *. rewrite Hl.
    destruct (Hkeep d d' Hf) as [Hid Hname].
    repeat split; try reflexivity.
    + apply Forall2_rewrite_one.
      * intros x. repeat split; reflexivity.
      * repeat split; try assumption.
        intros Hother. destruct Hother. now apply Hsel.
    + right. now exists pre, d, d', post.
Qed.

Lemma set_positional_keeps (filter : M) (s : string) (p p' : Patient.t) :
  apply_update filter [("$set", Doc [("schedule.$", Str s)])] p = Ok p' ->
  Patient.ID p' = Patient.ID p /\ Patient.PName p' = Patient.PName p.
Proof.
  cbn.
  destruct (lookup "schedule" filter) as [[|wanted|?|?]|]; try discriminate;
    destruct (Patient.Schedule p) as [|l]; try discriminate.
  destruct (first_index wanted l); try discriminate.
  cbn. intros Heq. inversion Heq; subst. now split.
Qed.

Lemma push_appointment_keeps (filter : M) (a : string) (p p' : Patient.t) :
  apply_update filter [("$push", Doc [("schedule", Str a)])] p = Ok p' ->
  Patient.ID p' = Patient.ID p /\ Patient.PName p' = Patient.PName p.
Proof.
  rewrite push_appointment_run. destruct (Patient.Schedule p); [discriminate|].
  intros Heq. inversion Heq; subst. now split.
Qed.

Lemma pull_appointment_keeps (filter : M) (a : string) (p p' : Patient.t) :
  apply_update filter [("$pull", Doc [("schedule", Str a)])] p = Ok p' ->
  Patient.ID p' = Patient.ID p /\ Patient.PName p' = Patient.PName p.
Proof.
  rewrite pull_appointment_run. destruct (Patient.Schedule p); [discriminate|].
  intros Heq. inversion Heq; subst. now split.
Qed.

(** C10. Setting a doctor's schedule, booking, updating and cancelling
    each change one document at most, whatever the request and whatever
    the server does.  The users and the other collection are untouched;
    in the collection addressed, every document whose id is not the id
    of the path is unchanged, and every document keeps its id and its
    name. *)
Theorem C10_schedule_operations_touch_one_document (cl : Client) :
  (forall c : gin.Context (list string),
      touches_one_doctor (gin.Param c "id") cl.(hospital)
        (database_after (SetDoctorSchedule c) cl)) /\
  (forall c : gin.Context string,
      touches_one_patient (gin.Param c "id") cl.(hospital)
        (database_after (BookAppointment c) cl)) /\
  (forall c : gin.Context string,
      touches_one_patient (gin.Param c "id") cl.(hospital)
        (database_after (UpdateAppointment c) cl)) /\
  (forall c : gin.Context unit,
      touches_one_patient (gin.Param c "id") cl.(hospital)
        (database_after (CancelAppointment c) cl)).
Proof.
  split; [|split; [|split]]; intros c; unfold database_after.
  - unfold SetDoctorSchedule.
    destruct (gin.ShouldBindJSON c) as [schedule|e];
      [|apply touches_one_doctor_refl].
    unfold bind.
    destruct (UpdateOne _ _ _ cl) as [r cl'] eqn:Hrun.
    apply doctors_update_framed with (id := gin.Param c "id") in Hrun.
    + now destruct r.
    + intros d Hd. rewrite selects_doctor in Hd. now apply String.eqb_eq.
    + intros d d' Hf. rewrite set_schedule in Hf. inversion Hf; subst. now split.
  - unfold BookAppointment.
    destruct (gin.ShouldBindJSON c) as [a|e];
      [|apply touches_one_patient_refl].
    unfold bind.
    destruct (UpdateOne _ _ _ cl) as [r cl'] eqn:Hrun.
    apply patients_update_framed with (id := gin.Param c "id") in Hrun.
    + now destruct r.
    + intros p Hp. rewrite selects_patient in Hp. now apply String.eqb_eq.
    + intros p p'. apply push_appointment_keeps.
  - unfold UpdateAppointment.
    destruct (gin.ShouldBindJSON c) as [s|e];
      [|apply touches_one_patient_refl].
    unfold bind.
    destruct (UpdateOne _ _ _ cl) as [r cl'] eqn:Hrun.
    apply patients_update_framed with (id := gin.Param c "id") in Hrun.
    + now destruct r.
    + intros p Hp. rewrite selects_appointment in Hp.
      apply andb_true_iff in Hp. destruct Hp as [Hp _]. now apply String.eqb_eq.
    + intros p p'. apply set_positional_keeps.
  - unfold CancelAppointment, bind.
    destruct (UpdateOne _ _ _ cl) as [r cl'] eqn:Hrun.
    apply patients_update_framed with (id := gin.Param c "id") in Hrun.
    + now destruct r.
    + intros p Hp. rewrite selects_patient in Hp. now apply String.eqb_eq.
    + intros p p'. apply pull_appointment_keeps.
Qed.

(** ** Doctors *)

Lemma FindOne_answered {T : Type} `{Document T}
    (coll : Collection T) (filter : M) (cl : Client) :
  answered 1 cl ->
  FindOne coll filter cl =
  (match List.find (matches filter) (docs coll cl.(hospital)) with
   | Some d => Ok d
   | None => Err ErrNoDocuments
   end, after_calls 1 cl.(hospital) cl).
Proof.
  intros Hans. destruct (answered_next 0 cl Hans) as [Hrt _].
  unfold FindOne, bind. rewrite Hrt.
  unfold read, ret; simpl.
  destruct (find _ _); reflexivity.
Qed.

Lemma InsertOne_answered {T : Type}
    (coll : Collection T) (document : T) (cl : Client) :
  answered 1 cl ->
  InsertOne coll document cl =
  (Ok tt,
   after_calls 1 (store coll (docs coll cl.(hospital) ++ [document]) cl.(hospital)) cl).
Proof.
  intros Hans. destruct (answered_next 0 cl Hans) as [Hrt _].
  unfold InsertOne, bind. rewrite Hrt. reflexivity.
Qed.

Lemma find_first {T : Type} (selects : T -> bool) (pre : list T) (d : T) (post : list T) :
  (forall x, In x pre -> selects x = false) ->
  selects d = true ->
  List.find selects (pre ++ d :: post) = Some d.
Proof.
  intros Hpre Hd. induction pre as [|x pre IH]; simpl.
  - now rewrite Hd.
  - rewrite (Hpre x (or_introl eq_refl)). apply IH.
    intros y Hy. apply Hpre. now right.
Qed.

Lemma first_doctor_selected (id : string) (l pre : list Doctor.t)
    (d : Doctor.t) (post : list Doctor.t) :
  first_with (fun x => Doctor.ID x = id) l pre d post ->
  (forall x, In x pre -> matches [("id", Str id)] x = false) /\
  matches [("id", Str id)] d = true.
Proof.
  intros (_ & Hd & Hpre). split.
  - intros x Hx. rewrite selects_doctor. apply String.eqb_neq. now apply Hpre.
  - rewrite selects_doctor. now apply String.eqb_eq.
Qed.

Lemma SetDoctorSchedule_hit (c : gin.Context (list string)) (cl : Client)
    (schedule : list string) (pre : list Doctor.t) (d : Doctor.t) (post : list Doctor.t) :
  gin.ShouldBindJSON c = Ok schedule ->
  answered 1 cl ->
  first_with (fun x => Doctor.ID x = gin.Param c "id") cl.(hospital).(doctor) pre d post ->
  SetDoctorSchedule c cl =
  (gin.JSON http.StatusOK (gin.H "message" "Doctor's schedule updated successfully"),
   after_calls 1
     (store doctor_collection
        (pre ++ Doctor.mk (Doctor.ID d) (Doctor.DName d) schedule :: post)
        cl.(hospital)) cl).
Proof.
  intros Hbody Hans Hfirst.
  destruct (first_doctor_selected _ _ _ _ _ Hfirst) as [Hpre Hd].
  destruct Hfirst as (Hl & _ & _).
  unfold SetDoctorSchedule. rewrite Hbody. unfold bind.
  rewrite (UpdateOne_hit doctor_collection _ _ cl pre d _ post Hans Hl Hpre Hd
             (set_schedule _ schedule d)).
  reflexivity.
Qed.

(** C5. Setting the schedule of a doctor puts the supplied list in the
    place of the schedule of the doctor the path names, entry for entry
    and in the supplied order, with nothing of the old schedule kept; a
    fetch of that id right after answers with the doctor carrying exactly
    the supplied list. *)
Theorem C5_set_schedule_replaces_wholesale
    (c : gin.Context (list string)) (c' : gin.Context unit) (cl : Client)
    (schedule : list string) (pre : list Doctor.t) (d : Doctor.t) (post : list Doctor.t) :
  gin.ShouldBindJSON c = Ok schedule ->
  gin.Param c' "id" = gin.Param c "id" ->
  answered 2 cl ->
  first_with (fun x => Doctor.ID x = gin.Param c "id") cl.(hospital).(doctor) pre d post ->
  let d' := Doctor.mk (Doctor.ID d) (Doctor.DName d) schedule in
  response (SetDoctorSchedule c) cl =
    gin.JSON http.StatusOK (gin.H "message" "Doctor's schedule updated successfully") /\
  database_after (SetDoctorSchedule c) cl =
    store doctor_collection (pre ++ d' :: post) cl.(hospital) /\
  response (GetDoctorByID c') (client_after (SetDoctorSchedule c) cl) =
    gin.JSON http.StatusOK (gin.OfDoctor d') /\
  Doctor.Schedule d' = schedule.
Proof.
  intros Hbody Hid Hans Hfirst d'.
  assert (Hans1 : answered 1 cl) by (apply (answered_fewer 2); [lia|assumption]).
  pose proof (SetDoctorSchedule_hit c cl schedule pre d post Hbody Hans1 Hfirst) as Hset.
  unfold response, database_after, client_after. rewrite Hset. simpl.
  split; [reflexivity|]. split; [reflexivity|]. split; [|reflexivity].
  unfold GetDoctorByID, bind.
  rewrite FindOne_answered by now apply (answered_after 1 1).
  simpl. rewrite Hid.
  destruct Hfirst as (_ & Hd & Hpre).
  rewrite (find_first _ pre d' post); [reflexivity| |].
  - intros x Hx. rewrite selects_doctor. apply String.eqb_neq. now apply Hpre.
  - rewrite selects_doctor. now apply String.eqb_eq.
Qed.

(** C6. Creating a doctor stores the supplied document as it is, after
    the documents already there, and looks at no id: with a doctor of the
    same id in the collection the creation still answers with success,
    and afterwards the collection holds the old document and the new one,
    so at least two documents with that id. *)
Theorem C6_create_doctor_keeps_duplicates (c : gin.Context Doctor.t) (cl : Client)
    (newDoctor existing : Doctor.t) :
  gin.ShouldBindJSON c = Ok newDoctor ->
  answered 1 cl ->
  In existing cl.(hospital).(doctor) ->
  Doctor.ID existing = Doctor.ID newDoctor ->
  let db' := database_after (CreateDoctor c) cl in
  let with_id l := List.filter (fun d => Doctor.ID d =? Doctor.ID newDoctor) l in
  response (CreateDoctor c) cl =
    gin.JSON http.StatusOK (gin.H "message" "Doctor created successfully") /\
  db' = store doctor_collection (cl.(hospital).(doctor) ++ [newDoctor]) cl.(hospital) /\
  In existing db'.(doctor) /\
  In newDoctor db'.(doctor) /\
  length (with_id db'.(doctor)) = S (length (with_id cl.(hospital).(doctor))) /\
  2 <= length (with_id db'.(doctor)).
Proof.
  intros Hbody Hans Hin Hid db' with_id.
  assert (Hdb : db' = store doctor_collection (cl.(hospital).(doctor) ++ [newDoctor])
                        cl.(hospital)).
  { unfold db', database_after, CreateDoctor. rewrite Hbody. unfold bind.
    now rewrite InsertOne_answered. }
  assert (Hcount : length (with_id db'.(doctor)) =
                   S (length (with_id cl.(hospital).(doctor)))).
  { rewrite Hdb. simpl. unfold with_id.
    rewrite filter_app, length_app. simpl.
    rewrite String.eqb_refl. simpl. lia. }
  split; [|split; [exact Hdb|split; [|split; [|split; [exact Hcount|]]]]].
  - unfold response, CreateDoctor. rewrite Hbody. unfold bind.
    now rewrite InsertOne_answered.
  - rewrite Hdb. simpl. apply in_or_app. now left.
  - rewrite Hdb. simpl. apply in_or_app. right. now left.
  - rewrite Hcount.
    assert (Hex : In existing (with_id cl.(hospital).(doctor))).
    { apply filter_In. split; [assumption|]. now apply String.eqb_eq. }
    destruct (with_id cl.(hospital).(doctor)); [contradiction|simpl; lia].
Qed.

(** ** Signing up *)

Section SignUpFacts.

Variable hash : string -> Z -> Result string.

Lemma isUsernameTaken_run (username : string) (cl : Client) :
  isUsernameTaken username cl =
  (if negb (hd false cl.(outages))
   then Ok (0 <? Z.of_nat (length (List.filter (matches [("username", Str username)])
                                               cl.(hospital).(users))))%Z
   else Err ErrUnreachable,
   after_calls 1 cl.(hospital) cl).
Proof.
  unfold isUsernameTaken, CountDocuments, bind, roundtrip, read, ret; simpl.
  destruct (negb (hd false (outages cl))); reflexivity.
Qed.

Lemma counted_when_present (existing : User.t) (l : list User.t) (username : string) :
  In existing l ->
  User.Username existing = username ->
  (0 <? Z.of_nat (length (List.filter (matches [("username", Str username)]) l)))%Z = true.
Proof.
  intros Hin Hname.
  assert (Hf : In existing (List.filter (matches [("username", Str username)]) l)).
  { apply filter_In. split; [assumption|].
    rewrite selects_user. now apply String.eqb_eq. }
  destruct (List.filter _ l); [contradiction|].
  apply Z.ltb_lt. simpl length. lia.
Qed.

Lemma not_counted_when_absent (l : list User.t) (username : string) :
  (forall u, In u l -> User.Username u <> username) ->
  (0 <? Z.of_nat (length (List.filter (matches [("username", Str username)]) l)))%Z = false.
Proof.
  intros Hno.
  assert (Hf : List.filter (matches [("username", Str username)]) l = []).
  { induction l as [|u l IH]; cbn [List.filter]; [reflexivity|].
    rewrite selects_user.
    destruct (User.Username u =? username) eqn:Hu.
    - apply String.eqb_eq in Hu. now destruct (Hno u (or_introl eq_refl)).
    - apply IH. intros x Hx. apply Hno. now right. }
  now rewrite Hf.
Qed.

(** C1. With a user document of the same username in the store, compared
    letter for letter, a signup is turned away: when the server answers
    the lookup the reply is 400 with "Username is already taken", in no
    case is it a success, and the database, so the users collection, is
    left as it was, with no second document of that username. *)
Theorem C1_signup_rejects_taken_username (c : gin.Context User.t) (cl : Client)
    (newUser existing : User.t) :
  gin.ShouldBindJSON c = Ok newUser ->
  In existing cl.(hospital).(users) ->
  User.Username existing = User.Username newUser ->
  (answered 1 cl ->
   response (SignUp hash c) cl =
     gin.JSON http.StatusBadRequest (gin.H "error" "Username is already taken")) /\
  gin.Code (response (SignUp hash c) cl) <> http.StatusOK /\
  database_after (SignUp hash c) cl = cl.(hospital).
Proof.
  intros Hbody Hin Hname.
  unfold response, database_after, SignUp. rewrite Hbody. unfold bind.
  rewrite isUsernameTaken_run.
  rewrite (counted_when_present existing _ _ Hin Hname).
  split; [|split].
  - intros Hans. rewrite (answered_up cl Hans). reflexivity.
  - destruct (negb (hd false (outages cl))); simpl; discriminate.
  - destruct (negb (hd false (outages cl))); reflexivity.
Qed.

(** C7, as the code has it.  Signup does not look at the password before
    hashing it.  A request with the empty password and a username not yet
    in the store is accepted whenever bcrypt hashes the empty password and
    the server answers the two calls: the reply is the success message and
    one user document is added, carrying the username, the hash and the
    email. *)
Theorem C7_signup_accepts_empty_password (c : gin.Context User.t) (cl : Client)
    (newUser : User.t) (hashedPassword : string) :
  gin.ShouldBindJSON c = Ok newUser ->
  User.Password newUser = "" ->
  (forall u, In u cl.(hospital).(users) -> User.Username u <> User.Username newUser) ->
  hash "" bcrypt.DefaultCost = Ok hashedPassword ->
  answered 2 cl ->
  response (SignUp hash c) cl =
    gin.JSON http.StatusOK (gin.H "message" "User created successfully") /\
  database_after (SignUp hash c) cl =
    store users_collection
      (cl.(hospital).(users) ++
       [User.mk (User.Username newUser) hashedPassword (User.Email newUser)])
      cl.(hospital).
Proof.
  intros Hbody Hempty Hfresh Hhash Hans.
  assert (Hans1 : answered 1 cl) by (apply (answered_fewer 2); [lia|assumption]).
  unfold response, database_after, SignUp. rewrite Hbody. unfold bind.
  rewrite isUsernameTaken_run, (answered_up cl Hans1).
  rewrite (not_counted_when_absent _ _ Hfresh).
  rewrite Hempty, Hhash.
  rewrite InsertOne_answered by now apply (answered_after 1 1).
  split; reflexivity.
Qed.

End SignUpFacts.

(** ** Reading the statements *)

(** Any document with the property has a first one before or at it, so
    the statements about "the first document with the id" speak of every
    id present in a collection. *)
Lemma first_with_exists {T : Type} (sel : T -> Prop) (l : list T) (d0 : T) :
  (forall x, {sel x} + {~ sel x}) ->
  In d0 l -> sel d0 ->
  exists pre d post, first_with sel l pre d post.
Proof.
  intros Hdec. induction l as [|x l IH]; intros Hin Hsel; [contradiction|].
  destruct (Hdec x) as [Hx|Hx].
  - exists [], x, l. split; [reflexivity|]. split; [assumption|]. intros y [].
  - destruct Hin as [->|Hin]; [contradiction|].
    destruct (IH Hin Hsel) as (pre & d & post & Hl & Hd & Hpre).
    exists (x :: pre), d, post. split; [now rewrite Hl|]. split; [assumption|].
    intros y [<-|Hy]; [assumption|now apply Hpre].
Qed.

(** Usernames are compared letter for letter: ["Alice"] is free while
    ["alice"] is taken. *)
Example signup_is_case_sensitive :
  response (SignUp sample_hash (signup_request (User.mk "Alice" "pw" "a@clinic.example")))
           (quiet ward) =
  gin.JSON http.StatusOK (gin.H "message" "User created successfully").
Proof. reflexivity. Qed.

(** A call the server does not answer ends in a 500 and writes nothing. *)
Example booking_during_an_outage :
  BookAppointment (id_request "p1" (Ok "A1")) {| hospital := ward; outages := [true] |} =
  (gin.JSON http.StatusInternalServerError (gin.H "error" "Error booking appointment"),
   quiet ward).
Proof. reflexivity. Qed.

(** The insert of a signup can fail after the lookup went through. *)
Example signup_insert_fails :
  SignUp sample_hash (signup_request (User.mk "bob" "pw" "bob@clinic.example"))
         {| hospital := ward; outages := [false; true] |} =
  (gin.JSON http.StatusInternalServerError (gin.H "error" "Error creating user"),
   quiet ward).
Proof. reflexivity. Qed.

(** A body that does not bind is answered with a 400 before any call. *)
Example booking_with_a_malformed_body :
  BookAppointment {| gin.Params := [("id", "p1")]; gin.Body := Err ErrBind |} (quiet ward) =
  (gin.JSON http.StatusBadRequest (gin.H "error" "Invalid input data"), quiet ward).
Proof. reflexivity. Qed.

(** Listing gives the doctors in the order of the collection, and a
    fetch of an id gives the first document with it. *)
Example listing_the_ward :
  response (GetDoctors (id_request "" (Ok tt))) (quiet ward) =
  gin.JSON http.StatusOK (gin.OfDoctors ward.(doctor)).
Proof. reflexivity. Qed.

Example fetching_an_unknown_doctor :
  response (GetDoctorByID (id_request "d7" (Ok tt))) (quiet ward) =
  gin.JSON http.StatusNotFound (gin.H "error" "Doctor not found").
Proof. reflexivity. Qed.

Example appointments_of_a_patient :
  response (GetPatientAppointments (id_request "p2" (Ok tt))) (quiet ward) =
  gin.JSON http.StatusOK (gin.OfStrings (Slice ["A1"; "C3"; "A1"; "A1"])).
Proof. reflexivity. Qed.


(** ** The statements on the sample ward *)

Lemma C1_witness :
  response (SignUp sample_hash (signup_request (User.mk "alice" "s3cret" "a@clinic.example")))
           (quiet ward) =
    gin.JSON http.StatusBadRequest (gin.H "error" "Username is already taken") /\
  database_after (SignUp sample_hash
                    (signup_request (User.mk "alice" "s3cret" "a@clinic.example")))
                 (quiet ward) = ward.
Proof.
  assert (Htaken := C1_signup_rejects_taken_username sample_hash
            (signup_request (User.mk "alice" "s3cret" "a@clinic.example")) (quiet ward)
            (User.mk "alice" "s3cret" "a@clinic.example")
            (User.mk "alice" "$2a$10$N9qo8uLOickgx2ZMRZoMye" "alice@clinic.example")
            eq_refl (or_introl eq_refl) eq_refl).
  split.
  - apply (proj1 Htaken). answered_quiet.
  - exact (proj2 (proj2 Htaken)).
Defined.

Lemma C2_witness :
  (database_after (CancelAppointment (appointment_request "p2" "A1" (Ok tt)))
                  (quiet ward)).(patients) =
    [Patient.mk "p0" "Hana" (Slice ["B7"]); Patient.mk "p1" "Omar" (Slice []);
     Patient.mk "p2" "Laila" (Slice ["C3"])] /\
  response (CancelAppointment (appointment_request "p2" "Z9" (Ok tt))) (quiet ward) =
    gin.JSON http.StatusOK (gin.H "message" "Appointment canceled successfully") /\
  database_after (CancelAppointment (appointment_request "p2" "Z9" (Ok tt))) (quiet ward) =
    ward /\
  response (CancelAppointment (appointment_request "p3" "A1" (Ok tt))) (quiet admissions) =
    gin.JSON http.StatusInternalServerError (gin.H "error" "Error canceling appointment").
Proof.
  assert (Hfirst : first_with (fun q => Patient.ID q = "p2") ward.(patients)
            [Patient.mk "p0" "Hana" (Slice ["B7"]); Patient.mk "p1" "Omar" (Slice [])]
            (Patient.mk "p2" "Laila" (Slice ["A1"; "C3"; "A1"; "A1"])) []) by first_here.
  assert (Hnull : first_with (fun q => Patient.ID q = "p3") admissions.(patients)
            [] (Patient.mk "p3" "Nour" Nil) [Patient.mk "p4" "Sami" (Slice ["A1"])])
    by first_here.
  assert (Hans : answered 1 (quiet ward)) by answered_quiet.
  assert (Hans' : answered 1 (quiet admissions)) by answered_quiet.
  split; [|split; [|split]].
  - exact (proj1 (proj1 (proj2 (proj1 (C2_cancel_removes_every_occurrence
             (appointment_request "p2" "A1" (Ok tt)) (quiet ward) _ _ _ Hans Hfirst)
             ["A1"; "C3"; "A1"; "A1"] eq_refl)))).
  - exact (proj1 (proj1 (C2_cancel_removes_every_occurrence
             (appointment_request "p2" "Z9" (Ok tt)) (quiet ward) _ _ _ Hans Hfirst)
             ["A1"; "C3"; "A1"; "A1"] eq_refl)).
  - refine (proj2 (proj2 (proj2 (proj2 (proj1 (C2_cancel_removes_every_occurrence
             (appointment_request "p2" "Z9" (Ok tt)) (quiet ward) _ _ _ Hans Hfirst)
             ["A1"; "C3"; "A1"; "A1"] eq_refl)))) _).
    simpl. intuition discriminate.
  - exact (proj1 (proj2 (C2_cancel_removes_every_occurrence
             (appointment_request "p3" "A1" (Ok tt)) (quiet admissions) _ _ _ Hans' Hnull)
             eq_refl)).
Defined.

(** C2, as the claim has it, fails: the patient ["p3"] has a null
    schedule, and the cancellation of ["A1"] for ["p3"] is answered with
    a 500, not with success; the patients are as before. *)
Lemma C2_counterexample :
  response (CancelAppointment (appointment_request "p3" "A1" (Ok tt))) (quiet admissions) =
    gin.JSON http.StatusInternalServerError (gin.H "error" "Error canceling appointment") /\
  (database_after (CancelAppointment (appointment_request "p3" "A1" (Ok tt)))
                  (quiet admissions)).(patients) =
    [Patient.mk "p3" "Nour" Nil; Patient.mk "p4" "Sami" (Slice ["A1"])] /\
  ~ cancelling_succeeds_for_every_patient
      (appointment_request "p3" "A1" (Ok tt)) (quiet admissions).
Proof.
  split; [reflexivity|]. split; [reflexivity|].
  intros Hsucceeds.
  assert (Hnull : first_with (fun q => Patient.ID q = "p3") admissions.(patients)
            [] (Patient.mk "p3" "Nour" Nil) [Patient.mk "p4" "Sami" (Slice ["A1"])])
    by first_here.
  specialize (Hsucceeds _ _ _ Hnull). discriminate Hsucceeds.
Qed.

Lemma C3_witness :
  (database_after (UpdateAppointment (appointment_request "p2" "C3" (Ok "C3-rescheduled")))
                  (quiet ward)).(patients) =
    [Patient.mk "p0" "Hana" (Slice ["B7"]); Patient.mk "p1" "Omar" (Slice []);
     Patient.mk "p2" "Laila" (Slice ["A1"; "C3-rescheduled"; "A1"; "A1"])] /\
  response (UpdateAppointment (appointment_request "p2" "Z9" (Ok "Z9-rescheduled")))
           (quiet ward) =
    gin.JSON http.StatusOK (gin.H "message" "Appointment updated successfully") /\
  database_after (UpdateAppointment (appointment_request "p2" "Z9" (Ok "Z9-rescheduled")))
                 (quiet ward) = ward.
Proof.
  assert (Hans : answered 1 (quiet ward)) by answered_quiet.
  split; [|split].
  - refine (proj1 (proj1 (proj2 (C3_update_replaces_matching_entry
              (appointment_request "p2" "C3" (Ok "C3-rescheduled")) (quiet ward)
              "C3-rescheduled" eq_refl Hans))
              [Patient.mk "p0" "Hana" (Slice ["B7"]); Patient.mk "p1" "Omar" (Slice [])]
              (Patient.mk "p2" "Laila" (Slice ["A1"; "C3"; "A1"; "A1"])) []
              ["A1"] ["A1"; "A1"] _ eq_refl _)).
    + first_here.
    + simpl. intuition discriminate.
  - exact (proj1 (C3_update_replaces_matching_entry
              (appointment_request "p2" "Z9" (Ok "Z9-rescheduled")) (quiet ward)
              "Z9-rescheduled" eq_refl Hans)).
  - refine (proj2 (proj2 (C3_update_replaces_matching_entry
              (appointment_request "p2" "Z9" (Ok "Z9-rescheduled")) (quiet ward)
              "Z9-rescheduled" eq_refl Hans)) _).
    intros q Hq Hid. simpl in Hq.
    repeat (destruct Hq as [<-|Hq]; [simpl; intuition discriminate|]). contradiction.
Defined.

Lemma C4_witness :
  (database_after (BookAppointment (id_request "p1" (Ok "A2")))
     (client_after (BookAppointment (id_request "p1" (Ok "A1"))) (quiet ward))).(patients) =
    [Patient.mk "p0" "Hana" (Slice ["B7"]); Patient.mk "p1" "Omar" (Slice ["A1"; "A2"]);
     Patient.mk "p2" "Laila" (Slice ["A1"; "C3"; "A1"; "A1"])] /\
  response (BookAppointment (id_request "p3" (Ok "A1"))) (quiet admissions) =
    gin.JSON http.StatusInternalServerError (gin.H "error" "Error booking appointment").
Proof.
  split.
  - refine (proj1 (proj2 (proj2 (proj2 (proj1 (C4_book_appends
              (id_request "p1" (Ok "A1")) (id_request "p1" (Ok "A2")) (quiet ward) "A1" "A2"
              [Patient.mk "p0" "Hana" (Slice ["B7"])] (Patient.mk "p1" "Omar" (Slice []))
              [Patient.mk "p2" "Laila" (Slice ["A1"; "C3"; "A1"; "A1"])]
              eq_refl eq_refl eq_refl _ _) [] eq_refl))))).
    + answered_quiet.
    + first_here.
  - refine (proj1 (proj2 (C4_book_appends
              (id_request "p3" (Ok "A1")) (id_request "p3" (Ok "A2")) (quiet admissions)
              "A1" "A2"
              [] (Patient.mk "p3" "Nour" Nil) [Patient.mk "p4" "Sami" (Slice ["A1"])]
              eq_refl eq_refl eq_refl _ _) eq_refl)).
    + answered_quiet.
    + first_here.
Defined.

(** C4, as the claim has it, fails: the patient ["p3"] has a null
    schedule, and the booking of ["A1"] for ["p3"] is answered with a 500
    and appends nothing; the schedule stays null. *)
Lemma C4_counterexample :
  response (BookAppointment (id_request "p3" (Ok "A1"))) (quiet admissions) =
    gin.JSON http.StatusInternalServerError (gin.H "error" "Error booking appointment") /\
  (database_after (BookAppointment (id_request "p3" (Ok "A1")))
                  (quiet admissions)).(patients) =
    [Patient.mk "p3" "Nour" Nil; Patient.mk "p4" "Sami" (Slice ["A1"])] /\
  ~ booking_appends_for_every_patient (id_request "p3" (Ok "A1")) (quiet admissions).
Proof.
  split; [reflexivity|]. split; [reflexivity|].
  intros Happends.
  assert (Hnull : first_with (fun q => Patient.ID q = "p3") admissions.(patients)
            [] (Patient.mk "p3" "Nour" Nil) [Patient.mk "p4" "Sami" (Slice ["A1"])])
    by first_here.
  specialize (Happends "A1" _ _ _ eq_refl Hnull). discriminate Happends.
Qed.

Lemma C5_witness :
  response (GetDoctorByID (id_request "d1" (Ok tt)))
    (client_after (SetDoctorSchedule (id_request "d1" (Ok ["Mon"; "Wed"]))) (quiet ward)) =
  gin.JSON http.StatusOK (gin.OfDoctor (Doctor.mk "d1" "Dr. Salem" ["Mon"; "Wed"])).
Proof.
  refine (proj1 (proj2 (proj2 (C5_set_schedule_replaces_wholesale
            (id_request "d1" (Ok ["Mon"; "Wed"])) (id_request "d1" (Ok tt)) (quiet ward)
            ["Mon"; "Wed"]
            [Doctor.mk "d0" "Dr. Farouk" ["Sun"]]
            (Doctor.mk "d1" "Dr. Salem" ["Tue"; "Thu"; "Sat"])
            [Doctor.mk "d1" "Dr. Salem (old)" ["Fri"]]
            eq_refl eq_refl _ _)))).
  - answered_quiet.
  - first_here.
Defined.

Lemma C6_witness :
  response (CreateDoctor (create_request (Doctor.mk "d0" "Dr. Nabil" ["Mon"]))) (quiet ward) =
    gin.JSON http.StatusOK (gin.H "message" "Doctor created successfully") /\
  (database_after (CreateDoctor (create_request (Doctor.mk "d0" "Dr. Nabil" ["Mon"])))
                  (quiet ward)).(doctor) =
    [Doctor.mk "d0" "Dr. Farouk" ["Sun"];
     Doctor.mk "d1" "Dr. Salem" ["Tue"; "Thu"; "Sat"];
     Doctor.mk "d1" "Dr. Salem (old)" ["Fri"];
     Doctor.mk "d0" "Dr. Nabil" ["Mon"]].
Proof.
  assert (Hcreated := C6_create_doctor_keeps_duplicates
            (create_request (Doctor.mk "d0" "Dr. Nabil" ["Mon"])) (quiet ward)
            (Doctor.mk "d0" "Dr. Nabil" ["Mon"]) (Doctor.mk "d0" "Dr. Farouk" ["Sun"])
            eq_refl (Forall_nil _) (or_introl eq_refl) eq_refl).
  split.
  - exact (proj1 Hcreated).
  - exact (f_equal doctor (proj1 (proj2 Hcreated))).
Defined.

Lemma C7_witness :
  response (SignUp sample_hash (signup_request (User.mk "bob" "" "bob@clinic.example")))
           (quiet ward) =
    gin.JSON http.StatusOK (gin.H "message" "User created successfully") /\
  database_after (SignUp sample_hash (signup_request (User.mk "bob" "" "bob@clinic.example")))
                 (quiet ward) =
    store users_collection
      [User.mk "alice" "$2a$10$N9qo8uLOickgx2ZMRZoMye" "alice@clinic.example";
       User.mk "bob" "$2a$10$" "bob@clinic.example"]
      ward.
Proof.
  refine (C7_signup_accepts_empty_password sample_hash
            (signup_request (User.mk "bob" "" "bob@clinic.example")) (quiet ward)
            (User.mk "bob" "" "bob@clinic.example") "$2a$10$"
            eq_refl eq_refl _ eq_refl _).
  - intros u Hu. simpl in Hu. destruct Hu as [<-|[]]. simpl. discriminate.
  - answered_quiet.
Defined.

(** C7, as the claim has it, fails: on the empty database the signup of
    ["bob"] with the empty password is answered with success and leaves a
    user document behind. *)
Lemma C7_counterexample :
  response (SignUp sample_hash (signup_request (User.mk "bob" "" "bob@clinic.example")))
           (quiet empty_hospital) =
    gin.JSON http.StatusOK (gin.H "message" "User created successfully") /\
  (database_after (SignUp sample_hash (signup_request (User.mk "bob" "" "bob@clinic.example")))
                  (quiet empty_hospital)).(users) =
    [User.mk "bob" "$2a$10$" "bob@clinic.example"] /\
  ~ rejects_empty_password sample_hash
      (signup_request (User.mk "bob" "" "bob@clinic.example")) (quiet empty_hospital).
Proof.
  split; [reflexivity|]. split; [reflexivity|].
  intros Hrejects.
  destruct (Hrejects (User.mk "bob" "" "bob@clinic.example") eq_refl eq_refl) as [Hcode _].
  apply Hcode. reflexivity.
Qed.

Lemma C8_witness :
  (database_after (UpdateAppointment (appointment_request "p2" "A1" (Ok "A9")))
                  (quiet ward)).(patients) =
    [Patient.mk "p0" "Hana" (Slice ["B7"]); Patient.mk "p1" "Omar" (Slice []);
     Patient.mk "p2" "Laila" (Slice ["A9"; "C3"; "A1"; "A1"])] /\
  exists s',
    patients_become
      [Patient.mk "p0" "Hana" (Slice ["B7"]); Patient.mk "p1" "Omar" (Slice []);
       Patient.mk "p2" "Laila" (Slice s')]
      ward
      (database_after (UpdateAppointment (appointment_request "p2" "A1" (Ok "A9")))
                      (quiet ward)) /\
    length s' = 4 /\
    nth_error s' 0 = Some "A9" /\
    (forall k, k <> 0 -> nth_error s' k = nth_error ["A1"; "C3"; "A1"; "A1"] k) /\
    (forall j, 0 < j -> nth_error ["A1"; "C3"; "A1"; "A1"] j = Some "A1" ->
               nth_error s' j = Some "A1").
Proof.
  split; [reflexivity|].
  refine (C8_update_first_occurrence_only
            (appointment_request "p2" "A1" (Ok "A9")) (quiet ward) "A9"
            [Patient.mk "p0" "Hana" (Slice ["B7"]); Patient.mk "p1" "Omar" (Slice [])]
            (Patient.mk "p2" "Laila" (Slice ["A1"; "C3"; "A1"; "A1"])) [] 0
            eq_refl _ _ eq_refl _).
  - answered_quiet.
  - first_here.
  - intros k Hk. lia.
Defined.

Lemma C9_witness :
  (response (BookAppointment (id_request "p9" (Ok "A1"))) (quiet ward) =
     gin.JSON http.StatusOK (gin.H "message" "Appointment booked successfully") /\
   database_after (BookAppointment (id_request "p9" (Ok "A1"))) (quiet ward) = ward) /\
  (response (UpdateAppointment (appointment_request "p9" "A1" (Ok "A2"))) (quiet ward) =
     gin.JSON http.StatusOK (gin.H "message" "Appointment updated successfully") /\
   database_after (UpdateAppointment (appointment_request "p9" "A1" (Ok "A2"))) (quiet ward) =
     ward) /\
  (response (CancelAppointment (appointment_request "p9" "A1" (Ok tt))) (quiet ward) =
     gin.JSON http.StatusOK (gin.H "message" "Appointment canceled successfully") /\
   database_after (CancelAppointment (appointment_request "p9" "A1" (Ok tt))) (quiet ward) =
     ward).
Proof.
  assert (Hnoop : _) by
    (refine (C9_unknown_patient_is_a_successful_noop (quiet ward) "p9" _ _);
     [ intros q Hq; simpl in Hq;
       repeat (destruct Hq as [<-|Hq]; [simpl; discriminate|]); contradiction
     | answered_quiet ]).
  split; [|split].
  - exact (proj1 Hnoop (id_request "p9" (Ok "A1")) "A1" eq_refl eq_refl).
  - exact (proj1 (proj2 Hnoop) (appointment_request "p9" "A1" (Ok "A2")) "A2" eq_refl eq_refl).
  - exact (proj2 (proj2 Hnoop) (appointment_request "p9" "A1" (Ok tt)) eq_refl).
Defined.

(** * Further properties of the handlers *)

(** ** Calls whatever the server does *)

Lemma up_answered (cl : Client) :
  negb (hd false cl.(outages)) = true -> answered 1 cl.
Proof.
  unfold answered. destruct (outages cl) as [|down rest]; simpl; intros Hup.
  - constructor.
  - destruct down; [discriminate|]. constructor; [reflexivity|].
    destruct rest; constructor.
Qed.

Lemma not_answered_down (cl : Client) :
  ~ answered 1 cl -> negb (hd false cl.(outages)) = false.
Proof.
  intros Hno. destruct (negb (hd false (outages cl))) eqn:Hup; [|reflexivity].
  destruct Hno. now apply up_answered.
Qed.

Lemma answered_dec (cl : Client) : {answered 1 cl} + {~ answered 1 cl}.
Proof.
  destruct (negb (hd false (outages cl))) eqn:Hup.
  - left. now apply up_answered.
  - right. intros Hans. rewrite (answered_up cl Hans) in Hup. discriminate.
Qed.

Lemma FindOne_run {T : Type} `{Document T}
    (coll : Collection T) (filter : M) (cl : Client) :
  FindOne coll filter cl =
  (if negb (hd false cl.(outages))
   then match List.find (matches filter) (docs coll cl.(hospital)) with
        | Some d => Ok d
        | None => Err ErrNoDocuments
        end
   else Err ErrUnreachable,
   after_calls 1 cl.(hospital) cl).
Proof.
  unfold FindOne, bind, roundtrip, read, ret; simpl.
  destruct (negb (hd false (outages cl))); [|reflexivity].
  destruct (find _ _); reflexivity.
Qed.

Lemma UpdateOne_unanswered {T : Type} `{Document T}
    (coll : Collection T) (filter update : M) (cl : Client) :
  ~ answered 1 cl ->
  UpdateOne coll filter update cl = (Err ErrUnreachable, after_calls 1 cl.(hospital) cl).
Proof.
  intros Hno. unfold UpdateOne, bind, roundtrip; simpl.
  now rewrite (not_answered_down cl Hno).
Qed.

Lemma InsertOne_unanswered {T : Type}
    (coll : Collection T) (document : T) (cl : Client) :
  ~ answered 1 cl ->
  InsertOne coll document cl = (Err ErrUnreachable, after_calls 1 cl.(hospital) cl).
Proof.
  intros Hno. unfold InsertOne, bind, roundtrip; simpl.
  now rewrite (not_answered_down cl Hno).
Qed.

(** [find] gives the first selected element, and only that. *)
Lemma find_is_first {T : Type} (selects : T -> bool) (l : list T) (d : T) :
  List.find selects l = Some d <->
  exists pre post,
    l = pre ++ d :: post /\ selects d = true /\ forall x, In x pre -> selects x = false.
Proof.
  split.
  - induction l as [|x l IH]; simpl; [discriminate|].
    destruct (selects x) eqn:Hx.
    + intros Heq. inversion Heq; subst.
      exists [], l. repeat split; try assumption. intros y [].
    + intros Hfind. destruct (IH Hfind) as (pre & post & -> & Hd & Hpre).
      exists (x :: pre), post. repeat split; try assumption.
      intros y [<-|Hy]; [assumption|now apply Hpre].
  - intros (pre & post & -> & Hd & Hpre). now apply find_first.
Qed.

Lemma first_doctor_iff (id : string) (l pre : list Doctor.t) (d : Doctor.t)
    (post : list Doctor.t) :
  first_with (fun x => Doctor.ID x = id) l pre d post <->
  l = pre ++ d :: post /\ matches [("id", Str id)] d = true /\
  forall x, In x pre -> matches [("id", Str id)] x = false.
Proof.
  unfold first_with. rewrite selects_doctor, String.eqb_eq.
  split; intros (Hl & Hd & Hpre); repeat split; try assumption; intros x Hx.
  - rewrite selects_doctor. apply String.eqb_neq. now apply Hpre.
  - specialize (Hpre x Hx). rewrite selects_doctor in Hpre. now apply String.eqb_neq.
Qed.

Lemma first_patient_iff (id : string) (l pre : list Patient.t) (p : Patient.t)
    (post : list Patient.t) :
  first_with (fun q => Patient.ID q = id) l pre p post <->
  l = pre ++ p :: post /\ matches [("id", Str id)] p = true /\
  forall x, In x pre -> matches [("id", Str id)] x = false.
Proof.
  unfold first_with. rewrite selects_patient, String.eqb_eq.
  split; intros (Hl & Hp & Hpre); repeat split; try assumption; intros x Hx.
  - rewrite selects_patient. apply String.eqb_neq. now apply Hpre.
  - specialize (Hpre x Hx). rewrite selects_patient in Hpre. now apply String.eqb_neq.
Qed.

(** ** The read handlers *)

Lemma decode_all_appends {T : Type} (cur acc : list T) :
  decode_all cur acc = Ok (acc ++ cur).
Proof.
  revert acc. induction cur as [|d cur IH]; intros acc; simpl.
  - now rewrite app_nil_r.
  - rewrite IH. now rewrite <- app_assoc.
Qed.

Lemma empty_filter_selects_all {T : Type} `{Document T} (l : list T) :
  List.filter (matches []) l = l.
Proof. induction l as [|d l IH]; simpl; [reflexivity|now rewrite IH]. Qed.

Lemma GetDoctors_run (c : gin.Context unit) (cl : Client) :
  GetDoctors c cl =
  (if negb (hd false cl.(outages))
   then gin.JSON http.StatusOK (gin.OfDoctors cl.(hospital).(doctor))
   else gin.JSON http.StatusInternalServerError (gin.H "error" "Error fetching doctor data"),
   after_calls 1 cl.(hospital) cl).
Proof.
  unfold GetDoctors, Find, bind, roundtrip, read, ret; simpl.
  destruct (negb (hd false (outages cl))); simpl; [|reflexivity].
  now rewrite decode_all_appends, empty_filter_selects_all.
Qed.

(** X1. The listing answers with every doctor document, none filtered
    out, in the order of the collection, when the server answers the
    query; when it does not, the answer is a 500 with "Error fetching
    doctor data". *)
Theorem GetDoctors_lists_the_collection (c : gin.Context unit) (cl : Client) :
  (answered 1 cl ->
   response (GetDoctors c) cl = gin.JSON http.StatusOK (gin.OfDoctors cl.(hospital).(doctor))) /\
  (~ answered 1 cl ->
   response (GetDoctors c) cl =
     gin.JSON http.StatusInternalServerError (gin.H "error" "Error fetching doctor data")).
Proof.
  unfold response. rewrite GetDoctors_run. simpl.
  split; intros Hans.
  - now rewrite (answered_up cl Hans).
  - now rewrite (not_answered_down cl Hans).
Qed.

(** X2. A fetch by id answers 200 with a document exactly when the
    server answers and that document is the first of the collection with
    the id; it answers 404 "Doctor not found" exactly when no document has
    the id or the server does not answer, a failed query being reported
    as not found. *)
Theorem GetDoctorByID_found_or_not_found (c : gin.Context unit) (cl : Client) :
  (forall d,
      response (GetDoctorByID c) cl = gin.JSON http.StatusOK (gin.OfDoctor d) <->
      answered 1 cl /\
      exists pre post,
        first_with (fun x => Doctor.ID x = gin.Param c "id") cl.(hospital).(doctor) pre d post) /\
  (response (GetDoctorByID c) cl =
     gin.JSON http.StatusNotFound (gin.H "error" "Doctor not found") <->
   ~ answered 1 cl \/
   forall d, In d cl.(hospital).(doctor) -> Doctor.ID d <> gin.Param c "id").
Proof.
  unfold response, GetDoctorByID, bind. rewrite FindOne_run. simpl.
  destruct (answered_dec cl) as [Hans|Hno].
  - rewrite (answered_up cl Hans).
    destruct (find _ _) as [d0|] eqn:Hfind; simpl.
    + pose proof (proj1 (find_is_first _ _ _) Hfind) as (pre0 & post0 & Hfirst0).
      split.
      * intros d. split.
        -- intros Heq. inversion Heq; subst. split; [assumption|].
           exists pre0, post0. now apply first_doctor_iff.
        -- intros (_ & pre & post & Hfirst).
           apply first_doctor_iff in Hfirst.
           assert (Hsame : find (matches [("id", Str (gin.Param c "id"))])
                             (doctor (hospital cl)) = Some d)
             by (apply find_is_first; now exists pre, post).
           rewrite Hfind in Hsame. now inversion Hsame.
      * split; [discriminate|].
        intros [Hno|Hnone]; [contradiction|].
        apply find_some in Hfind. destruct Hfind as [Hin Hsel].
        rewrite selects_doctor in Hsel. apply String.eqb_eq in Hsel.
        now destruct (Hnone d0 Hin).
    + split.
      * intros d. split; [discriminate|].
        intros (_ & pre & post & Hfirst).
        apply first_doctor_iff in Hfirst.
        assert (Hsame : find (matches [("id", Str (gin.Param c "id"))])
                          (doctor (hospital cl)) = Some d)
          by (apply find_is_first; now exists pre, post).
        rewrite Hfind in Hsame. discriminate.
      * split; [|reflexivity]. intros _. right.
        intros d Hin Hid.
        pose proof (find_none _ _ Hfind d Hin) as Hsel.
        rewrite selects_doctor in Hsel. apply String.eqb_neq in Hsel. contradiction.
  - rewrite (not_answered_down cl Hno). simpl. split.
    + intros d. split; [discriminate|]. intros [Hans _]. contradiction.
    + split; [now left|reflexivity].
Qed.

(** X3. The appointments getter answers 200 with a schedule exactly when
    the server answers and the schedule is that of the first patient
    document with the id; it answers 404 "Patient not found" exactly when
    no patient has the id or the server does not answer. *)
Theorem GetPatientAppointments_found_or_not_found (c : gin.Context unit) (cl : Client) :
  (forall s,
      response (GetPatientAppointments c) cl = gin.JSON http.StatusOK (gin.OfStrings s) <->
      answered 1 cl /\
      exists pre p post,
        first_with (fun q => Patient.ID q = gin.Param c "id") cl.(hospital).(patients) pre p post /\
        Patient.Schedule p = s) /\
  (response (GetPatientAppointments c) cl =
     gin.JSON http.StatusNotFound (gin.H "error" "Patient not found") <->
   ~ answered 1 cl \/
   forall p, In p cl.(hospital).(patients) -> Patient.ID p <> gin.Param c "id").
Proof.
  unfold response, GetPatientAppointments, bind. rewrite FindOne_run. simpl.
  destruct (answered_dec cl) as [Hans|Hno].
  - rewrite (answered_up cl Hans).
    destruct (find _ _) as [p0|] eqn:Hfind; simpl.
    + pose proof (proj1 (find_is_first _ _ _) Hfind) as (pre0 & post0 & Hfirst0).
      split.
      * intros s. split.
        -- intros Heq. inversion Heq; subst. split; [assumption|].
           exists pre0, p0, post0. split; [now apply first_patient_iff|reflexivity].
        -- intros (_ & pre & p & post & Hfirst & <-).
           apply first_patient_iff in Hfirst.
           assert (Hsame : find (matches [("id", Str (gin.Param c "id"))])
                             (patients (hospital cl)) = Some p)
             by (apply find_is_first; now exists pre, post).
           rewrite Hfind in Hsame. now inversion Hsame.
      * split; [discriminate|].
        intros [Hno|Hnone]; [contradiction|].
        apply find_some in Hfind. destruct Hfind as [Hin Hsel].
        rewrite selects_patient in Hsel. apply String.eqb_eq in Hsel.
        now destruct (Hnone p0 Hin).
    + split.
      * intros s. split; [discriminate|].
        intros (_ & pre & p & post & Hfirst & _).
        apply first_patient_iff in Hfirst.
        assert (Hsame : find (matches [("id", Str (gin.Param c "id"))])
                          (patients (hospital cl)) = Some p)
          by (apply find_is_first; now exists pre, post).
        rewrite Hfind in Hsame. discriminate.
      * split; [|reflexivity]. intros _. right.
        intros p Hin Hid.
        pose proof (find_none _ _ Hfind p Hin) as Hsel.
        rewrite selects_patient in Hsel. apply String.eqb_neq in Hsel. contradiction.
  - rewrite (not_answered_down cl Hno). simpl. split.
    + intros s. split; [discriminate|]. intros [Hans _]. contradiction.
    + split; [now left|reflexivity].
Qed.

(** X4. The three read handlers write nothing: whatever the request and
    whatever the server does, the database after the listing, the fetch
    of a doctor and the appointments getter is the database before. *)
Theorem read_handlers_write_nothing (c : gin.Context unit) (cl : Client) :
  database_after (GetDoctors c) cl = cl.(hospital) /\
  database_after (GetDoctorByID c) cl = cl.(hospital) /\
  database_after (GetPatientAppointments c) cl = cl.(hospital).
Proof.
  unfold database_after. repeat split.
  - now rewrite GetDoctors_run.
  - unfold GetDoctorByID, bind. rewrite FindOne_run.
    destruct (negb (hd false (outages cl))); [|reflexivity].
    destruct (find _ _); reflexivity.
  - unfold GetPatientAppointments, bind. rewrite FindOne_run.
    destruct (negb (hd false (outages cl))); [|reflexivity].
    destruct (find _ _); reflexivity.
Qed.

(** ** Creating a doctor, then reading *)

Lemma CreateDoctor_answered (c : gin.Context Doctor.t) (cl : Client) (newDoctor : Doctor.t) :
  gin.ShouldBindJSON c = Ok newDoctor ->
  answered 1 cl ->
  CreateDoctor c cl =
  (gin.JSON http.StatusOK (gin.H "message" "Doctor created successfully"),
   after_calls 1
     (store doctor_collection (cl.(hospital).(doctor) ++ [newDoctor]) cl.(hospital)) cl).
Proof.
  intros Hbody Hans. unfold CreateDoctor. rewrite Hbody. unfold bind.
  now rewrite InsertOne_answered.
Qed.

Lemma GetDoctorByID_answered (c : gin.Context unit) (cl : Client) :
  answered 1 cl ->
  response (GetDoctorByID c) cl =
  match List.find (matches [("id", Str (gin.Param c "id"))]) cl.(hospital).(doctor) with
  | Some d => gin.JSON http.StatusOK (gin.OfDoctor d)
  | None => gin.JSON http.StatusNotFound (gin.H "error" "Doctor not found")
  end.
Proof.
  intros Hans. unfold response, GetDoctorByID, bind.
  rewrite FindOne_run, (answered_up cl Hans). simpl.
  destruct (find _ _); reflexivity.
Qed.

(** X5. A doctor created under an id that no document carries yet is
    what a fetch of that id returns right after, field for field, and is
    the last entry of the listing, after the doctors already there. *)
Theorem create_then_read_round_trip
    (c : gin.Context Doctor.t) (c' c'' : gin.Context unit) (cl : Client)
    (newDoctor : Doctor.t) :
  gin.ShouldBindJSON c = Ok newDoctor ->
  gin.Param c' "id" = Doctor.ID newDoctor ->
  (forall d, In d cl.(hospital).(doctor) -> Doctor.ID d <> Doctor.ID newDoctor) ->
  answered 2 cl ->
  let cl1 := client_after (CreateDoctor c) cl in
  response (GetDoctorByID c') cl1 = gin.JSON http.StatusOK (gin.OfDoctor newDoctor) /\
  response (GetDoctors c'') cl1 =
    gin.JSON http.StatusOK (gin.OfDoctors (cl.(hospital).(doctor) ++ [newDoctor])).
Proof.
  intros Hbody Hid Hfresh Hans cl1.
  assert (Hans1 : answered 1 cl) by (apply (answered_fewer 2); [lia|assumption]).
  assert (Hcl1 : cl1 = after_calls 1
            (store doctor_collection (cl.(hospital).(doctor) ++ [newDoctor]) cl.(hospital)) cl).
  { unfold cl1, client_after. now rewrite (CreateDoctor_answered c cl newDoctor). }
  assert (Hans2 : answered 1 cl1) by (rewrite Hcl1; now apply (answered_after 1 1)).
  split.
  - rewrite GetDoctorByID_answered by assumption.
    rewrite Hcl1, Hid. simpl.
    rewrite (find_first _ (doctor (hospital cl)) newDoctor []); [reflexivity| |].
    + intros x Hx. rewrite selects_doctor. apply String.eqb_neq. now apply Hfresh.
    + rewrite selects_doctor. apply String.eqb_refl.
  - unfold response. rewrite GetDoctors_run, (answered_up cl1 Hans2).
    now rewrite Hcl1.
Qed.

(** X6. A doctor created under an id already in the collection is
    stored behind the older document: a fetch of the id right after the
    creation still answers with the older document, not the new one. *)
Theorem duplicate_doctor_is_shadowed
    (c : gin.Context Doctor.t) (c' : gin.Context unit) (cl : Client)
    (newDoctor : Doctor.t) (pre : list Doctor.t) (older : Doctor.t) (post : list Doctor.t) :
  gin.ShouldBindJSON c = Ok newDoctor ->
  gin.Param c' "id" = Doctor.ID newDoctor ->
  first_with (fun x => Doctor.ID x = Doctor.ID newDoctor) cl.(hospital).(doctor) pre older post ->
  answered 2 cl ->
  response (GetDoctorByID c') (client_after (CreateDoctor c) cl) =
  gin.JSON http.StatusOK (gin.OfDoctor older).
Proof.
  intros Hbody Hid Hfirst Hans.
  assert (Hans1 : answered 1 cl) by (apply (answered_fewer 2); [lia|assumption]).
  unfold client_after. rewrite (CreateDoctor_answered c cl newDoctor Hbody Hans1). simpl.
  rewrite GetDoctorByID_answered by now apply (answered_after 1 1).
  rewrite Hid. simpl.
  destruct (first_doctor_selected _ _ _ _ _ Hfirst) as [Hpre Holder].
  destruct Hfirst as (-> & _ & _).
  rewrite <- app_assoc. simpl.
  now rewrite (find_first _ pre older (post ++ [newDoctor]) Hpre Holder).
Qed.

(** ** When the writing handlers succeed *)

Lemma UpdateOne_total {T : Type} `{Document T}
    (coll : Collection T) (filter update : M) (cl : Client) :
  (forall d, matches filter d = true -> exists d', apply_update filter update d = Ok d') ->
  answered 1 cl ->
  exists n l',
    UpdateOne coll filter update cl =
    (Ok {| MatchedCount := n |}, after_calls 1 (store coll l' cl.(hospital)) cl).
Proof.
  intros Htotal Hans. rewrite UpdateOne_answered by assumption.
  destruct (update_first_total (matches filter) (apply_update filter update)
              (docs coll cl.(hospital)) Htotal) as (n & l' & ->).
  now exists n, l'.
Qed.

Lemma set_positional_total (id a s : string) (p : Patient.t) :
  matches [("id", Str id); ("schedule", Str a)] p = true ->
  exists p',
    apply_update [("id", Str id); ("schedule", Str a)]
                 [("$set", Doc [("schedule.$", Str s)])] p = Ok p'.
Proof.
  intros Hp. rewrite selects_appointment in Hp.
  apply andb_true_iff in Hp. destruct Hp as [_ Hin].
  apply contains_In in Hin.
  destruct (first_index_found _ _ Hin) as [i Hi].
  rewrite (set_positional _ _ s p i Hi). eexists; reflexivity.
Qed.

Lemma update_first_refused {T : Type} (selects : T -> bool) (f : T -> Result T)
    (l : list T) (e : error) :
  update_first selects f l = Err e ->
  exists pre d post,
    l = pre ++ d :: post /\
    (forall x, In x pre -> selects x = false) /\
    selects d = true /\ f d = Err e.
Proof.
  induction l as [|x l IH]; simpl; [discriminate|].
  destruct (selects x) eqn:Hx.
  - destruct (f x) as [x'|e'] eqn:Hf; [discriminate|].
    intros Heq. inversion Heq; subst.
    exists [], x, l. repeat split; try assumption. intros y [].
  - destruct (update_first selects f l) as [[n l']|e'] eqn:Hrest; [discriminate|].
    intros Heq. inversion Heq; subst.
    destruct (IH eq_refl) as (pre & d & post & -> & Hpre & Hd & Hf).
    exists (x :: pre), d, post. repeat split; try assumption.
    intros y [<-|Hy]; [assumption|now apply Hpre].
Qed.

(** A write on the patient of an id, by an operator that the server
    refuses on a null schedule and on nothing else, goes through exactly
    when the patient, if there is one, has an array for schedule. *)
Lemma array_write_outcome (update : M) (cl : Client) (id : string) :
  answered 1 cl ->
  (forall p, Patient.Schedule p = Nil ->
             exists e, apply_update [("id", Str id)] update p = Err e) ->
  (forall p, Patient.Schedule p <> Nil ->
             exists p', apply_update [("id", Str id)] update p = Ok p') ->
  (array_schedule_at id cl.(hospital).(patients) /\
   exists n l',
     UpdateOne patients_collection [("id", Str id)] update cl =
     (Ok {| MatchedCount := n |},
      after_calls 1 (store patients_collection l' cl.(hospital)) cl)) \/
  (~ array_schedule_at id cl.(hospital).(patients) /\
   exists e,
     UpdateOne patients_collection [("id", Str id)] update cl =
     (Err e, after_calls 1 cl.(hospital) cl)).
Proof.
  intros Hans Hnil Harr.
  rewrite UpdateOne_answered by assumption. simpl.
  destruct (update_first (matches [("id", Str id)])
              (apply_update [("id", Str id)] update) (patients (hospital cl)))
    as [[n l']|e] eqn:Hrun.
  - left. split; [|now exists n, l'].
    intros pre p post Hfirst Hp.
    apply first_patient_iff in Hfirst. destruct Hfirst as (Hl & Hsel & Hpre).
    rewrite Hl, (update_first_at _ _ pre p post Hpre Hsel) in Hrun.
    destruct (Hnil p Hp) as [e He]. rewrite He in Hrun. discriminate.
  - right. split; [|now exists e].
    intros Hall.
    destruct (update_first_refused _ _ _ _ Hrun) as (pre & p & post & Hl & Hpre & Hsel & Hf).
    assert (Hfirst : first_with (fun q => Patient.ID q = id)
              (patients (hospital cl)) pre p post)
      by (apply first_patient_iff; repeat split; assumption).
    destruct (Harr p (Hall pre p post Hfirst)) as [p' Hp']. rewrite Hp' in Hf. discriminate.
Qed.

Lemma push_on_null (filter : M) (a : string) (p : Patient.t) :
  Patient.Schedule p = Nil ->
  exists e, apply_update filter [("$push", Doc [("schedule", Str a)])] p = Err e.
Proof. intros Hp. rewrite push_appointment_run, Hp. eexists; reflexivity. Qed.

Lemma push_on_array (filter : M) (a : string) (p : Patient.t) :
  Patient.Schedule p <> Nil ->
  exists p', apply_update filter [("$push", Doc [("schedule", Str a)])] p = Ok p'.
Proof.
  intros Hp. rewrite push_appointment_run.
  destruct (Patient.Schedule p); [contradiction|eexists; reflexivity].
Qed.

Lemma pull_on_null (filter : M) (a : string) (p : Patient.t) :
  Patient.Schedule p = Nil ->
  exists e, apply_update filter [("$pull", Doc [("schedule", Str a)])] p = Err e.
Proof. intros Hp. rewrite pull_appointment_run, Hp. eexists; reflexivity. Qed.

Lemma pull_on_array (filter : M) (a : string) (p : Patient.t) :
  Patient.Schedule p <> Nil ->
  exists p', apply_update filter [("$pull", Doc [("schedule", Str a)])] p = Ok p'.
Proof.
  intros Hp. rewrite pull_appointment_run.
  destruct (Patient.Schedule p); [contradiction|eexists; reflexivity].
Qed.

(** X7. Creating a doctor, setting a schedule and updating an
    appointment answer with their success message exactly when the body
    binds to the handler's variable and the server answers the call:
    they do not fail for an unknown id or a missing appointment.  Booking
    and cancelling (which reads no body) need one thing more: that the
    patient the path names, if there is one, has an array for schedule,
    the server refusing both on a null schedule.  Any other answer
    leaves the database unchanged. *)
Theorem writing_handlers_succeed_exactly_when_bound_and_answered (cl : Client) :
  (forall c : gin.Context Doctor.t,
      succeeds_exactly_when (CreateDoctor c)
        (gin.JSON http.StatusOK (gin.H "message" "Doctor created successfully"))
        ((exists d, gin.ShouldBindJSON c = Ok d) /\ answered 1 cl) cl) /\
  (forall c : gin.Context (list string),
      succeeds_exactly_when (SetDoctorSchedule c)
        (gin.JSON http.StatusOK (gin.H "message" "Doctor's schedule updated successfully"))
        ((exists s, gin.ShouldBindJSON c = Ok s) /\ answered 1 cl) cl) /\
  (forall c : gin.Context string,
      succeeds_exactly_when (BookAppointment c)
        (gin.JSON http.StatusOK (gin.H "message" "Appointment booked successfully"))
        ((exists a, gin.ShouldBindJSON c = Ok a) /\ answered 1 cl /\
         array_schedule_at (gin.Param c "id") cl.(hospital).(patients)) cl) /\
  (forall c : gin.Context string,
      succeeds_exactly_when (UpdateAppointment c)
        (gin.JSON http.StatusOK (gin.H "message" "Appointment updated successfully"))
        ((exists s, gin.ShouldBindJSON c = Ok s) /\ answered 1 cl) cl) /\
  (forall c : gin.Context unit,
      succeeds_exactly_when (CancelAppointment c)
        (gin.JSON http.StatusOK (gin.H "message" "Appointment canceled successfully"))
        (answered 1 cl /\ array_schedule_at (gin.Param c "id") cl.(hospital).(patients)) cl).
Proof.
  split; [|split; [|split; [|split]]]; intros c;
    unfold succeeds_exactly_when, response, database_after.
  - unfold CreateDoctor.
    destruct (gin.ShouldBindJSON c) as [d|e] eqn:Hbody; [|settle_success].
    unfold bind. destruct (answered_dec cl) as [Hans|Hno].
    + rewrite InsertOne_answered by assumption. settle_success.
    + rewrite InsertOne_unanswered by assumption. settle_success.
  - unfold SetDoctorSchedule.
    destruct (gin.ShouldBindJSON c) as [s|e] eqn:Hbody; [|settle_success].
    unfold bind. destruct (answered_dec cl) as [Hans|Hno].
    + destruct (UpdateOne_total doctor_collection
                  [("id", Str (gin.Param c "id"))]
                  [("$set", Doc [("schedule", Strs s)])] cl) as (n & l' & ->);
        [intros d _; rewrite set_schedule; eexists; reflexivity|assumption|].
      settle_success.
    + rewrite UpdateOne_unanswered by assumption. settle_success.
  - unfold BookAppointment.
    destruct (gin.ShouldBindJSON c) as [a|e] eqn:Hbody.
    + unfold bind. destruct (answered_dec cl) as [Hans|Hno].
      * destruct (array_write_outcome [("$push", Doc [("schedule", Str a)])] cl
                    (gin.Param c "id") Hans
                    (push_on_null _ a) (push_on_array _ a))
          as [[Harr (n & l' & ->)]|[Hnull (e & ->)]]; simpl.
        -- split; [split; [intros _; repeat split; eauto|reflexivity]
                  |intros Hdiff; now destruct Hdiff].
        -- split; [split; [discriminate|intros (_ & _ & Harr); contradiction]
                  |reflexivity].
      * rewrite UpdateOne_unanswered by assumption. simpl.
        split; [split; [discriminate|intros (_ & Hans & _); contradiction]|reflexivity].
    + simpl. split; [split; [discriminate|intros ([a Ha] & _); discriminate]|reflexivity].
  - unfold UpdateAppointment.
    destruct (gin.ShouldBindJSON c) as [s|e] eqn:Hbody; [|settle_success].
    unfold bind. destruct (answered_dec cl) as [Hans|Hno].
    + destruct (UpdateOne_total patients_collection
                  [("id", Str (gin.Param c "id"));
                   ("schedule", Str (gin.Param c "appointmentID"))]
                  [("$set", Doc [("schedule.$", Str s)])] cl) as (n & l' & ->);
        [intros p Hp; now apply set_positional_total|assumption|].
      settle_success.
    + rewrite UpdateOne_unanswered by assumption. settle_success.
  - unfold CancelAppointment, bind. destruct (answered_dec cl) as [Hans|Hno].
    + destruct (array_write_outcome
                  [("$pull", Doc [("schedule", Str (gin.Param c "appointmentID"))])] cl
                  (gin.Param c "id") Hans
                  (pull_on_null _ _) (pull_on_array _ _))
        as [[Harr (n & l' & ->)]|[Hnull (e & ->)]]; simpl.
      * split; [split; [intros _; now split|reflexivity]
               |intros Hdiff; now destruct Hdiff].
      * split; [split; [discriminate|intros (_ & Harr); contradiction]|reflexivity].
    + rewrite UpdateOne_unanswered by assumption. simpl.
      split; [split; [discriminate|intros (Hans & _); contradiction]|reflexivity].
Qed.

(** ** What a schedule can become *)

Lemma patients_update_related (R : Patient.t -> Patient.t -> Prop)
    (filter update : M) (cl : Client) (r : Result UpdateResult) (cl' : Client) :
  (forall p, R p p) ->
  (forall p p', matches filter p = true -> apply_update filter update p = Ok p' -> R p p') ->
  UpdateOne patients_collection filter update cl = (r, cl') ->
  Forall2 R cl.(hospital).(patients) cl'.(hospital).(patients).
Proof.
  intros Hrefl Hstep Hrun.
  destruct (UpdateOne_effect patients_collection filter update cl store_docs_patients)
    as [Hsame|(pre & p & p' & post & Hl & Hdb & _ & Hp & Hf)];
    rewrite Hrun in *; simpl in *.
  - rewrite Hsame. now apply Forall2_same.
  - rewrite Hdb, Hl. simpl. apply Forall2_rewrite_one; [assumption|now apply Hstep].
Qed.

(** X8. Booking never drops or reorders an appointment: whatever the
    request and whatever the server does, every patient document after a
    booking is the document before, or the document before with the one
    booked string added at the end of its schedule, an array. *)
Theorem booking_only_appends (c : gin.Context string) (cl : Client) :
  Forall2 (fun p p' =>
             p' = p \/
             exists a s, gin.ShouldBindJSON c = Ok a /\
                         Patient.ID p = gin.Param c "id" /\
                         Patient.Schedule p = Slice s /\
                         p' = Patient.mk (Patient.ID p) (Patient.PName p) (Slice (s ++ [a])))
          cl.(hospital).(patients) (database_after (BookAppointment c) cl).(patients).
Proof.
  unfold database_after, BookAppointment.
  destruct (gin.ShouldBindJSON c) as [a|e] eqn:Hbody.
  - unfold bind. destruct (UpdateOne _ _ _ cl) as [r cl'] eqn:Hrun.
    apply patients_update_related
      with (R := fun p p' =>
                   p' = p \/
                   exists a0 s, Ok a = Ok a0 /\ Patient.ID p = gin.Param c "id" /\
                                Patient.Schedule p = Slice s /\
                                p' = Patient.mk (Patient.ID p) (Patient.PName p)
                                       (Slice (s ++ [a0]))) in Hrun.
    + now destruct r.
    + intros p. now left.
    + intros p p' Hp Hf. rewrite push_appointment_run in Hf.
      destruct (Patient.Schedule p) as [|s] eqn:Hs; [discriminate|].
      right. exists a, s. inversion Hf; subst.
      rewrite selects_patient in Hp. apply String.eqb_eq in Hp.
      repeat split; assumption.
  - simpl. apply Forall2_same. intros p. now left.
Qed.

Lemma pull_incl (a : string) (s : list string) : incl (pull a s) s.
Proof. unfold pull. apply incl_filter. Qed.

Lemma pull_length (a : string) (s : list string) : length (pull a s) <= length s.
Proof.
  unfold pull. induction s as [|x s IH]; simpl; [lia|].
  destruct (negb (x =? a)); simpl; lia.
Qed.

Lemma pull_without (a : string) (s : list string) : ~ In a (pull a s).
Proof.
  unfold pull. intros Hin. apply filter_In in Hin. destruct Hin as [_ Hneq].
  now rewrite String.eqb_refl in Hneq.
Qed.

(** X9. Cancelling never adds to a schedule: whatever the request and
    whatever the server does, every patient document after a
    cancellation keeps its id and name, every entry of its schedule was
    an entry before, and its schedule is no longer than before; a
    schedule is null after exactly when it was null before. *)
Theorem cancelling_only_removes (c : gin.Context unit) (cl : Client) :
  Forall2 (fun p p' =>
             Patient.ID p' = Patient.ID p /\ Patient.PName p' = Patient.PName p /\
             incl (entries (Patient.Schedule p')) (entries (Patient.Schedule p)) /\
             length (entries (Patient.Schedule p')) <= length (entries (Patient.Schedule p)) /\
             (Patient.Schedule p' = Nil <-> Patient.Schedule p = Nil))
          cl.(hospital).(patients) (database_after (CancelAppointment c) cl).(patients).
Proof.
  unfold database_after, CancelAppointment, bind.
  destruct (UpdateOne _ _ _ cl) as [r cl'] eqn:Hrun.
  apply patients_update_related
    with (R := fun p p' =>
                 Patient.ID p' = Patient.ID p /\ Patient.PName p' = Patient.PName p /\
                 incl (entries (Patient.Schedule p')) (entries (Patient.Schedule p)) /\
                 length (entries (Patient.Schedule p')) <=
                   length (entries (Patient.Schedule p)) /\
                 (Patient.Schedule p' = Nil <-> Patient.Schedule p = Nil)) in Hrun.
  - now destruct r.
  - intros p. repeat split; try apply incl_refl; try lia; auto.
  - intros p p' _ Hf. rewrite pull_appointment_run in Hf.
    destruct (Patient.Schedule p) as [|s] eqn:Hs; [discriminate|].
    inversion Hf; subst. simpl.
    repeat split; try apply pull_incl; try apply pull_length; discriminate.
Qed.

Lemma set_nth_entries (i : nat) (s : string) (l : list string) (x : string) :
  In x (set_nth i s l) -> x = s \/ In x l.
Proof.
  revert i. induction l as [|y l IH]; intros [|i]; simpl; intros Hin;
    try contradiction.
  - destruct Hin as [<-|Hin]; [now left|right; now right].
  - destruct Hin as [<-|Hin]; [right; now left|].
    destruct (IH i Hin) as [->|Hl]; [now left|right; now right].
Qed.

Lemma set_positional_shape (filter : M) (s : string) (p p' : Patient.t) :
  apply_update filter [("$set", Doc [("schedule.$", Str s)])] p = Ok p' ->
  exists i l,
    Patient.Schedule p = Slice l /\
    p' = Patient.mk (Patient.ID p) (Patient.PName p) (Slice (set_nth i s l)).
Proof.
  cbn.
  destruct (lookup "schedule" filter) as [[|wanted|?|?]|]; try discriminate;
    destruct (Patient.Schedule p) as [|l]; try discriminate.
  destruct (first_index wanted l) as [i|]; try discriminate.
  cbn. intros Heq. inversion Heq; subst. now exists i, l.
Qed.

(** X10. Updating never changes how many appointments a patient has:
    whatever the request and whatever the server does, every schedule
    after an update has the length it had, and each of its entries is an
    entry it had before or the new value of the request; a schedule is
    null after exactly when it was null before. *)
Theorem updating_keeps_schedule_lengths (c : gin.Context string) (cl : Client) :
  Forall2 (fun p p' =>
             length (entries (Patient.Schedule p')) = length (entries (Patient.Schedule p)) /\
             (forall x, In x (entries (Patient.Schedule p')) ->
                        In x (entries (Patient.Schedule p)) \/ gin.ShouldBindJSON c = Ok x) /\
             (Patient.Schedule p' = Nil <-> Patient.Schedule p = Nil))
          cl.(hospital).(patients) (database_after (UpdateAppointment c) cl).(patients).
Proof.
  unfold database_after, UpdateAppointment.
  destruct (gin.ShouldBindJSON c) as [s|e] eqn:Hbody.
  - unfold bind. destruct (UpdateOne _ _ _ cl) as [r cl'] eqn:Hrun.
    apply patients_update_related
      with (R := fun p p' =>
                   length (entries (Patient.Schedule p')) =
                     length (entries (Patient.Schedule p)) /\
                   (forall x, In x (entries (Patient.Schedule p')) ->
                              In x (entries (Patient.Schedule p)) \/ Ok s = Ok x) /\
                   (Patient.Schedule p' = Nil <-> Patient.Schedule p = Nil)) in Hrun.
    + now destruct r.
    + intros p. split; [reflexivity|]. split; [|reflexivity]. intros x Hx. now left.
    + intros p p' _ Hf. apply set_positional_shape in Hf.
      destruct Hf as (i & l & Hl & ->). rewrite Hl. simpl.
      split; [apply set_nth_length|]. split; [|split; discriminate].
      intros x Hx. destruct (set_nth_entries _ _ _ _ Hx) as [->|Hold]; [now right|now left].
  - simpl. apply Forall2_same. intros p.
    split; [reflexivity|]. split; [|reflexivity]. intros x Hx. now left.
Qed.

(** ** One write after another *)

Lemma update_first_twice {T : Type} (selects : T -> bool) (f1 f2 : T -> Result T)
    (l : list T) (n : Z) (l1 : list T) :
  update_first selects f1 l = Ok (n, l1) ->
  (forall d d1, selects d = true -> f1 d = Ok d1 ->
                selects d1 = true /\ f2 d1 = f2 d) ->
  update_first selects f2 l1 = update_first selects f2 l.
Proof.
  intros Hrun Hstep.
  destruct (update_first_inv _ _ _ _ _ Hrun)
    as [[-> _]|(pre & d & d1 & post & -> & -> & Hpre & Hd & Hf)]; [reflexivity|].
  destruct (Hstep d d1 Hd Hf) as [Hd1 Hsame].
  rewrite !update_first_at by assumption. now rewrite Hsame.
Qed.

Lemma UpdateOne_then {T : Type} `{Document T}
    (coll : Collection T) (filter u1 u2 : M) (cl : Client) :
  (forall l db, docs coll (store coll l db) = l) ->
  (forall l l' db, store coll l' (store coll l db) = store coll l' db) ->
  answered 2 cl ->
  (forall d, matches filter d = true -> exists d1, apply_update filter u1 d = Ok d1) ->
  (forall d, matches filter d = true -> exists d2, apply_update filter u2 d = Ok d2) ->
  (forall d d1, matches filter d = true -> apply_update filter u1 d = Ok d1 ->
                matches filter d1 = true /\
                apply_update filter u2 d1 = apply_update filter u2 d) ->
  fst (UpdateOne coll filter u2 (snd (UpdateOne coll filter u1 cl))) =
    fst (UpdateOne coll filter u2 cl) /\
  hospital (snd (UpdateOne coll filter u2 (snd (UpdateOne coll filter u1 cl)))) =
    hospital (snd (UpdateOne coll filter u2 cl)).
Proof.
  intros Hget Hput Hans Htotal Htotal2 Hstep.
  assert (Hans1 : answered 1 cl) by (apply (answered_fewer 2); [lia|assumption]).
  rewrite (UpdateOne_answered coll filter u1 cl Hans1).
  destruct (update_first_total (matches filter) (apply_update filter u1)
              (docs coll cl.(hospital)) Htotal) as (n & l1 & Hrun).
  rewrite Hrun. simpl.
  rewrite UpdateOne_answered by now apply (answered_after 1 1).
  rewrite (UpdateOne_answered coll filter u2 cl Hans1).
  simpl. rewrite Hget.
  rewrite (update_first_twice _ _ (apply_update filter u2) _ _ _ Hrun Hstep).
  destruct (update_first_total (matches filter) (apply_update filter u2)
              (docs coll cl.(hospital)) Htotal2) as (m & l2 & ->).
  simpl. split; [reflexivity|apply Hput].
Qed.

Lemma pull_pull (a : string) (s : list string) : pull a (pull a s) = pull a s.
Proof. apply pull_absent, pull_without. Qed.

Lemma UpdateOne_again {T : Type} `{Document T}
    (coll : Collection T) (filter update : M) (cl : Client) :
  (forall l db, docs coll (store coll l db) = l) ->
  (forall l l' db, store coll l' (store coll l db) = store coll l' db) ->
  answered 2 cl ->
  (forall d d1, matches filter d = true -> apply_update filter update d = Ok d1 ->
                matches filter d1 = true /\ apply_update filter update d1 = Ok d1) ->
  fst (UpdateOne coll filter update (snd (UpdateOne coll filter update cl))) =
    fst (UpdateOne coll filter update cl) /\
  hospital (snd (UpdateOne coll filter update (snd (UpdateOne coll filter update cl)))) =
    hospital (snd (UpdateOne coll filter update cl)).
Proof.
  intros Hget Hput Hans Hstep.
  assert (Hans1 : answered 1 cl) by (apply (answered_fewer 2); [lia|assumption]).
  rewrite (UpdateOne_answered coll filter update cl Hans1).
  destruct (update_first (matches filter) (apply_update filter update)
              (docs coll cl.(hospital))) as [[n l1]|e] eqn:Hrun; simpl.
  - rewrite UpdateOne_answered by now apply (answered_after 1 1).
    simpl. rewrite Hget.
    rewrite (update_first_twice _ _ (apply_update filter update) _ _ _ Hrun), Hrun.
    + simpl. split; [reflexivity|apply Hput].
    + intros d d1 Hd Hf. destruct (Hstep d d1 Hd Hf) as [Hd1 Hf1].
      split; [assumption|now rewrite Hf1, Hf].
  - rewrite UpdateOne_answered by now apply (answered_after 1 1).
    simpl. rewrite Hrun. now split.
Qed.

(** X11. Cancelling is idempotent: a second cancellation of the same
    appointment for the same patient gets the same answer as one
    cancellation and leaves the database that the first one left. *)
Theorem cancelling_twice_is_cancelling_once (c : gin.Context unit) (cl : Client) :
  answered 2 cl ->
  let cl1 := client_after (CancelAppointment c) cl in
  response (CancelAppointment c) cl1 = response (CancelAppointment c) cl /\
  database_after (CancelAppointment c) cl1 = cl1.(hospital).
Proof.
  intros Hans cl1.
  assert (Hans1 : answered 1 cl) by (apply (answered_fewer 2); [lia|assumption]).
  destruct (UpdateOne_again patients_collection
              [("id", Str (gin.Param c "id"))]
              [("$pull", Doc [("schedule", Str (gin.Param c "appointmentID"))])] cl)
    as [Hfst Hdb]; try assumption; try reflexivity.
  - intros p p1 Hp Hf. rewrite pull_appointment_run in Hf.
    destruct (Patient.Schedule p) as [|s]; [discriminate|].
    inversion Hf; subst. split.
    + rewrite selects_patient in *. exact Hp.
    + rewrite pull_appointment_run. simpl. now rewrite pull_pull.
  - unfold cl1, client_after, response, database_after, CancelAppointment, bind.
    destruct (UpdateOne _ _ _ cl) as [r1 cl'] eqn:Hrun1. simpl in Hfst, Hdb.
    destruct r1; simpl;
      destruct (UpdateOne _ _ _ cl') as [r2 cl''] eqn:Hrun2; simpl in *; subst r2;
      (split; [reflexivity|exact Hdb]).
Qed.

(** X12. Of two schedules set one after the other for the same doctor
    id only the second counts: the database is the one that setting the
    second schedule alone would have left, with nothing of the first. *)
Theorem last_schedule_set_wins (c1 c2 : gin.Context (list string)) (cl : Client)
    (s1 s2 : list string) :
  gin.ShouldBindJSON c1 = Ok s1 ->
  gin.ShouldBindJSON c2 = Ok s2 ->
  gin.Param c2 "id" = gin.Param c1 "id" ->
  answered 2 cl ->
  database_after (SetDoctorSchedule c2) (client_after (SetDoctorSchedule c1) cl) =
  database_after (SetDoctorSchedule c2) cl.
Proof.
  intros Hb1 Hb2 Hid Hans.
  destruct (UpdateOne_then doctor_collection
              [("id", Str (gin.Param c1 "id"))]
              [("$set", Doc [("schedule", Strs s1)])]
              [("$set", Doc [("schedule", Strs s2)])] cl)
    as [_ Hdb]; try assumption; try reflexivity.
  - intros d _. rewrite set_schedule. eexists; reflexivity.
  - intros d _. rewrite set_schedule. eexists; reflexivity.
  - intros d d1 Hd Hf. rewrite set_schedule in Hf. inversion Hf; subst.
    split.
    + rewrite selects_doctor in *. exact Hd.
    + now rewrite !set_schedule.
  - unfold client_after, database_after, SetDoctorSchedule.
    rewrite Hb1, Hb2, Hid. unfold bind.
    destruct (UpdateOne _ _ _ cl) as [r1 cl'] eqn:Hrun1. simpl in Hdb.
    destruct r1; simpl;
      destruct (UpdateOne _ _ _ cl') as [r2 cl''] eqn:Hrun2; simpl in *;
      destruct (UpdateOne _ _ [("$set", Doc [("schedule", Strs s2)])] cl) as [r3 cl3];
      simpl in *; destruct r2, r3; simpl; exact Hdb.
Qed.

Lemma pull_just_booked (a : string) (s : list string) :
  pull a (s ++ [a]) = pull a s.
Proof.
  unfold pull. rewrite filter_app. simpl.
  rewrite String.eqb_refl. simpl. apply app_nil_r.
Qed.

(** X13. A booking followed by the cancellation of the same string, for
    the same patient, whose schedule is an array: both are answered with
    success, and the patient is left with the old schedule stripped of
    every entry equal to that string, earlier bookings of it included;
    so when the string was not in the schedule before, the two together
    restore the database. *)
Theorem booking_then_cancelling (c1 : gin.Context string) (c2 : gin.Context unit)
    (cl : Client) (a : string) (pre : list Patient.t) (p : Patient.t) (post : list Patient.t)
    (s : list string) :
  gin.ShouldBindJSON c1 = Ok a ->
  gin.Param c2 "id" = gin.Param c1 "id" ->
  gin.Param c2 "appointmentID" = a ->
  answered 2 cl ->
  first_with (fun q => Patient.ID q = gin.Param c1 "id") cl.(hospital).(patients) pre p post ->
  Patient.Schedule p = Slice s ->
  let cl1 := client_after (BookAppointment c1) cl in
  let db2 := database_after (CancelAppointment c2) cl1 in
  response (BookAppointment c1) cl =
    gin.JSON http.StatusOK (gin.H "message" "Appointment booked successfully") /\
  response (CancelAppointment c2) cl1 =
    gin.JSON http.StatusOK (gin.H "message" "Appointment canceled successfully") /\
  patients_become
    (pre ++ Patient.mk (Patient.ID p) (Patient.PName p)
              (Slice (List.filter (fun x => negb (x =? a)) s)) :: post)
    cl.(hospital) db2 /\
  (~ In a s -> db2 = cl.(hospital)).
Proof.
  intros Hbody Hid Happ Hans Hfirst Hs cl1 db2.
  assert (Hans1 : answered 1 cl) by (apply (answered_fewer 2); [lia|assumption]).
  pose proof (BookAppointment_hit c1 cl a pre p post s Hbody Hans1 Hfirst Hs) as Hrun1.
  assert (Hrun2 : CancelAppointment c2 cl1 =
            (gin.JSON http.StatusOK (gin.H "message" "Appointment canceled successfully"),
             after_calls 1
               (store patients_collection
                  (pre ++ Patient.mk (Patient.ID p) (Patient.PName p) (Slice (pull a s))
                       :: post) cl.(hospital)) cl1)).
  { unfold cl1, client_after. rewrite Hrun1. simpl.
    rewrite (CancelAppointment_hit c2 _ pre
               (Patient.mk (Patient.ID p) (Patient.PName p) (Slice (s ++ [a]))) post
               (s ++ [a])).
    - simpl. now rewrite Happ, pull_just_booked.
    - now apply (answered_after 1 1).
    - rewrite Hid. destruct Hfirst as (_ & Hp & Hpre).
      split; [reflexivity|]. split; [exact Hp|exact Hpre].
    - reflexivity. }
  unfold db2, response, database_after. rewrite Hrun1, Hrun2. simpl.
  split; [reflexivity|]. split; [reflexivity|]. split; [repeat split|].
  intros Hno. fold (pull a s). rewrite (pull_absent a _ Hno), <- Hs, patient_eta.
  destruct Hfirst as (Hl & _ & _). rewrite <- Hl. now destruct (hospital cl).
Qed.

(** X14. An update from [a] to [b] followed by the update from [b] back
    to [a] restores the database, provided [b] does not occur in the
    schedule before the first [a]; both updates answer with success, and
    in between the schedule has [b] where the first [a] was. *)
Theorem updating_there_and_back (c1 c2 : gin.Context string) (cl : Client) (a b : string)
    (pre : list Patient.t) (p : Patient.t) (post : list Patient.t) (s1 s2 : list string) :
  gin.Param c1 "appointmentID" = a -> gin.ShouldBindJSON c1 = Ok b ->
  gin.Param c2 "appointmentID" = b -> gin.ShouldBindJSON c2 = Ok a ->
  gin.Param c2 "id" = gin.Param c1 "id" ->
  answered 2 cl ->
  first_with (fun q => Patient.ID q = gin.Param c1 "id") cl.(hospital).(patients) pre p post ->
  Patient.Schedule p = Slice (s1 ++ a :: s2) ->
  ~ In a s1 ->
  ~ In b s1 ->
  let cl1 := client_after (UpdateAppointment c1) cl in
  response (UpdateAppointment c1) cl =
    gin.JSON http.StatusOK (gin.H "message" "Appointment updated successfully") /\
  patients_become
    (pre ++ Patient.mk (Patient.ID p) (Patient.PName p) (Slice (s1 ++ b :: s2)) :: post)
    cl.(hospital) cl1.(hospital) /\
  response (UpdateAppointment c2) cl1 =
    gin.JSON http.StatusOK (gin.H "message" "Appointment updated successfully") /\
  database_after (UpdateAppointment c2) cl1 = cl.(hospital).
Proof.
  intros Ha Hb1 Hb Hb2 Hid Hans Hfirst Hsched Hnoa Hnob cl1.
  assert (Hans1 : answered 1 cl) by (apply (answered_fewer 2); [lia|assumption]).
  destruct Hfirst as (Hl & Hp & Hpre).
  assert (Hrun1 : UpdateAppointment c1 cl =
            (gin.JSON http.StatusOK (gin.H "message" "Appointment updated successfully"),
             after_calls 1
               (store patients_collection
                  (pre ++ Patient.mk (Patient.ID p) (Patient.PName p)
                            (Slice (s1 ++ b :: s2)) :: post)
                  cl.(hospital)) cl)).
  { rewrite (UpdateAppointment_hit c1 cl b pre p post (length s1) Hb1 Hans1).
    - rewrite Hsched. simpl. now rewrite set_nth_split.
    - split; [exact Hl|]. split.
      + split; [exact Hp|]. rewrite Ha, Hsched. simpl. apply in_or_app. right. now left.
      + intros x Hx [Hxid _]. now apply (Hpre x Hx).
    - rewrite Ha, Hsched. simpl. now apply first_index_split. }
  assert (Hcl1 : cl1 = after_calls 1
            (store patients_collection
               (pre ++ Patient.mk (Patient.ID p) (Patient.PName p)
                         (Slice (s1 ++ b :: s2)) :: post)
               cl.(hospital)) cl)
    by (unfold cl1, client_after; now rewrite Hrun1).
  assert (Hrun2 : UpdateAppointment c2 cl1 =
            (gin.JSON http.StatusOK (gin.H "message" "Appointment updated successfully"),
             after_calls 1 cl.(hospital) cl1)).
  { rewrite (UpdateAppointment_hit c2 cl1 a pre
               (Patient.mk (Patient.ID p) (Patient.PName p) (Slice (s1 ++ b :: s2))) post
               (length s1) Hb2).
    - rewrite Hcl1. simpl. rewrite set_nth_split, <- Hsched, patient_eta, <- Hl.
      now destruct (hospital cl).
    - rewrite Hcl1. now apply (answered_after 1 1).
    - rewrite Hcl1, Hid, Hb. split; [reflexivity|]. split.
      + split; [exact Hp|]. simpl. apply in_or_app. right. now left.
      + intros x Hx [Hxid _]. now apply (Hpre x Hx).
    - rewrite Hb. simpl. now apply first_index_split. }
  unfold response, database_after. rewrite Hrun1, Hrun2, Hcl1. simpl.
  repeat split; reflexivity.
Qed.

Lemma first_index_points (a : string) (l : list string) (i : nat) :
  first_index a l = Some i -> nth_error l i = Some a.
Proof.
  revert i. induction l as [|x l IH]; simpl; intros i Hi; [discriminate|].
  destruct (x =? a) eqn:Hx.
  - inversion Hi; subst. apply String.eqb_eq in Hx. now subst.
  - destruct (first_index a l) as [j|]; [|discriminate].
    inversion Hi; subst. simpl. now apply IH.
Qed.

Lemma set_nth_self (i : nat) (a : string) (l : list string) :
  nth_error l i = Some a -> set_nth i a l = l.
Proof.
  revert i. induction l as [|x l IH]; intros [|i]; simpl; intros Hi;
    try discriminate.
  - now inversion Hi.
  - f_equal. now apply IH.
Qed.

(** X15. An update whose new value is the appointment identifier itself
    changes nothing: whatever the patients and whatever the server does,
    the database after it is the database before. *)
Theorem updating_to_itself_changes_nothing (c : gin.Context string) (cl : Client) :
  gin.ShouldBindJSON c = Ok (gin.Param c "appointmentID") ->
  database_after (UpdateAppointment c) cl = cl.(hospital).
Proof.
  intros Hbody. unfold database_after, UpdateAppointment. rewrite Hbody. unfold bind.
  destruct (UpdateOne_effect patients_collection
              [("id", Str (gin.Param c "id")); ("schedule", Str (gin.Param c "appointmentID"))]
              [("$set", Doc [("schedule.$", Str (gin.Param c "appointmentID"))])]
              cl store_docs_patients)
    as [Hsame|(pre & p & p' & post & Hl & Hdb & _ & Hp & Hf)];
    destruct (UpdateOne _ _ _ cl) as [r cl'] eqn:Hrun; simpl in *.
  - now destruct r.
  - assert (Hp' : p' = p).
    { revert Hf. cbn.
      destruct (Patient.Schedule p) as [|l] eqn:Hl'; [discriminate|].
      destruct (first_index (gin.Param c "appointmentID") l)
        as [i|] eqn:Hi; [|discriminate].
      cbn. intros Heq. inversion Heq; subst.
      rewrite (set_nth_self i _ _ (first_index_points _ _ _ Hi)), <- Hl'.
      apply patient_eta. }
    subst p'. rewrite <- Hl in Hdb.
    destruct r; simpl; rewrite Hdb; now destruct (hospital cl).
Qed.

(** ** More on signing up *)

Lemma InsertOne_run {T : Type} (coll : Collection T) (document : T) (cl : Client) :
  InsertOne coll document cl =
  if negb (hd false cl.(outages))
  then (Ok tt,
        after_calls 1 (store coll (docs coll cl.(hospital) ++ [document]) cl.(hospital)) cl)
  else (Err ErrUnreachable, after_calls 1 cl.(hospital) cl).
Proof.
  unfold InsertOne, bind, roundtrip, read, write, ret; simpl.
  destruct (negb (hd false (outages cl))); reflexivity.
Qed.

Lemma absent_when_not_counted (l : list User.t) (username : string) :
  (0 <? Z.of_nat (length (List.filter (matches [("username", Str username)]) l)))%Z = false ->
  forall u, In u l -> User.Username u <> username.
Proof.
  intros Hcount u Hin Hname.
  rewrite (counted_when_present u l username Hin Hname) in Hcount. discriminate.
Qed.

(** X16. The username lookup answers [true] exactly when some user
    document carries the very same username, and [false] otherwise,
    whenever the server answers the count; it reports an error when the
    server does not, and it never writes. *)
Theorem isUsernameTaken_tells_presence (username : string) (cl : Client) :
  (answered 1 cl ->
   exists taken,
     fst (isUsernameTaken username cl) = Ok taken /\
     (taken = true <->
      exists u, In u cl.(hospital).(users) /\ User.Username u = username)) /\
  (~ answered 1 cl -> fst (isUsernameTaken username cl) = Err ErrUnreachable) /\
  hospital (snd (isUsernameTaken username cl)) = cl.(hospital).
Proof.
  rewrite isUsernameTaken_run. simpl. split; [|split; [|reflexivity]].
  - intros Hans. rewrite (answered_up cl Hans).
    eexists. split; [reflexivity|]. split.
    + intros Hcount.
      destruct (List.filter (matches [("username", Str username)]) (users (hospital cl)))
        as [|u rest] eqn:Hf; [discriminate|].
      assert (Hin : In u (List.filter (matches [("username", Str username)])
                            (users (hospital cl)))) by (rewrite Hf; now left).
      apply filter_In in Hin. destruct Hin as [Hin Hsel].
      rewrite selects_user in Hsel. apply String.eqb_eq in Hsel.
      now exists u.
    + intros (u & Hin & Hname). now apply (counted_when_present u).
  - intros Hno. now rewrite (not_answered_down cl Hno).
Qed.

Section MoreSignUpFacts.

Variable hash : string -> Z -> Result string.

(** What a signup can do to the database, case by case. *)
Lemma SignUp_effect (c : gin.Context User.t) (cl : Client) :
  (gin.Code (response (SignUp hash c) cl) <> http.StatusOK /\
   database_after (SignUp hash c) cl = cl.(hospital)) \/
  exists u h,
    gin.ShouldBindJSON c = Ok u /\
    (forall x, In x cl.(hospital).(users) -> User.Username x <> User.Username u) /\
    hash (User.Password u) bcrypt.DefaultCost = Ok h /\
    answered 2 cl /\
    response (SignUp hash c) cl =
      gin.JSON http.StatusOK (gin.H "message" "User created successfully") /\
    database_after (SignUp hash c) cl =
      store users_collection
        (cl.(hospital).(users) ++ [User.mk (User.Username u) h (User.Email u)])
        cl.(hospital).
Proof.
  unfold response, database_after, SignUp.
  destruct (gin.ShouldBindJSON c) as [u|e] eqn:Hbody;
    [|left; split; [discriminate|reflexivity]].
  unfold bind. rewrite isUsernameTaken_run.
  destruct (negb (hd false (outages cl))) eqn:Hup1;
    [|left; split; [discriminate|reflexivity]].
  destruct (0 <? _)%Z eqn:Hcount; [left; split; [discriminate|reflexivity]|].
  destruct (hash (User.Password u) bcrypt.DefaultCost) as [h|e] eqn:Hhash;
    [|left; split; [discriminate|reflexivity]].
  rewrite InsertOne_run.
  destruct (negb (hd false (outages (after_calls 1 (hospital cl) cl)))) eqn:Hup2;
    [|left; split; [discriminate|reflexivity]].
  right. exists u, h.
  split; [reflexivity|]. split; [now apply absent_when_not_counted|].
  split; [exact Hhash|]. split; [|split; reflexivity].
  apply up_answered in Hup1. apply up_answered in Hup2.
  unfold answered, after_calls in *. simpl in *.
  destruct (outages cl) as [|x rest]; [constructor|].
  simpl in *. inversion Hup1; subst. constructor; [reflexivity|assumption].
Qed.

(** X17. A signup touches the users collection only, and at most adds
    one document at its end: the username and email of the request with,
    as password, the result of [GenerateFromPassword] on the password
    of the request. *)
Theorem SignUp_stores_only_a_hash (c : gin.Context User.t) (cl : Client) :
  let db' := database_after (SignUp hash c) cl in
  db'.(doctor) = cl.(hospital).(doctor) /\
  db'.(patients) = cl.(hospital).(patients) /\
  (db'.(users) = cl.(hospital).(users) \/
   exists u h,
     gin.ShouldBindJSON c = Ok u /\
     hash (User.Password u) bcrypt.DefaultCost = Ok h /\
     db'.(users) = cl.(hospital).(users) ++ [User.mk (User.Username u) h (User.Email u)]).
Proof.
  intros db'. unfold db'.
  destruct (SignUp_effect c cl)
    as [[_ ->]|(u & h & Hbody & _ & Hhash & _ & _ & ->)]; simpl.
  - repeat split. now left.
  - repeat split. right. now exists u, h.
Qed.

(** X18. Signups keep usernames unique: if no two user documents share
    a username before a signup, none do after it, whatever the request,
    the hashing and the server do. *)
Theorem SignUp_keeps_usernames_distinct (c : gin.Context User.t) (cl : Client) :
  NoDup (map User.Username cl.(hospital).(users)) ->
  NoDup (map User.Username (database_after (SignUp hash c) cl).(users)).
Proof.
  intros Hdistinct.
  destruct (SignUp_effect c cl)
    as [[_ ->]|(u & h & _ & Hfresh & _ & _ & _ & ->)]; simpl; [assumption|].
  rewrite map_app. simpl. apply NoDup_app; [assumption| |].
  - constructor; [intros []|constructor].
  - intros name Hin [<-|[]].
    apply in_map_iff in Hin. destruct Hin as (x & Hname & Hx).
    now apply (Hfresh x Hx).
Qed.

Lemma SignUp_created (c : gin.Context User.t) (cl : Client) (u : User.t) (h : string) :
  gin.ShouldBindJSON c = Ok u ->
  (forall x, In x cl.(hospital).(users) -> User.Username x <> User.Username u) ->
  hash (User.Password u) bcrypt.DefaultCost = Ok h ->
  answered 2 cl ->
  SignUp hash c cl =
  (gin.JSON http.StatusOK (gin.H "message" "User created successfully"),
   after_calls 2
     (store users_collection
        (cl.(hospital).(users) ++ [User.mk (User.Username u) h (User.Email u)])
        cl.(hospital)) cl).
Proof.
  intros Hbody Hfresh Hhash Hans.
  assert (Hans1 : answered 1 cl) by (apply (answered_fewer 2); [lia|assumption]).
  unfold SignUp. rewrite Hbody. unfold bind.
  rewrite isUsernameTaken_run, (answered_up cl Hans1).
  rewrite (not_counted_when_absent _ _ Hfresh), Hhash.
  rewrite InsertOne_answered by now apply (answered_after 1 1).
  now rewrite after_calls_twice.
Qed.

(** X19. Of two signups in a row under the same username, the first
    one, on a free username, creates the user and the second is turned
    away with "Username is already taken", whatever its password and
    email: the users collection ends with the one new document. *)
Theorem signing_up_twice (c1 c2 : gin.Context User.t) (cl : Client)
    (u1 u2 : User.t) (h : string) :
  gin.ShouldBindJSON c1 = Ok u1 ->
  gin.ShouldBindJSON c2 = Ok u2 ->
  User.Username u2 = User.Username u1 ->
  (forall x, In x cl.(hospital).(users) -> User.Username x <> User.Username u1) ->
  hash (User.Password u1) bcrypt.DefaultCost = Ok h ->
  answered 3 cl ->
  let cl1 := client_after (SignUp hash c1) cl in
  response (SignUp hash c1) cl =
    gin.JSON http.StatusOK (gin.H "message" "User created successfully") /\
  response (SignUp hash c2) cl1 =
    gin.JSON http.StatusBadRequest (gin.H "error" "Username is already taken") /\
  (database_after (SignUp hash c2) cl1).(users) =
    cl.(hospital).(users) ++ [User.mk (User.Username u1) h (User.Email u1)].
Proof.
  intros Hb1 Hb2 Hname Hfresh Hhash Hans cl1.
  assert (Hans2 : answered 2 cl) by (apply (answered_fewer 3); [lia|assumption]).
  pose proof (SignUp_created c1 cl u1 h Hb1 Hfresh Hhash Hans2) as Hrun1.
  assert (Hcl1 : cl1 = after_calls 2
            (store users_collection
               (cl.(hospital).(users) ++ [User.mk (User.Username u1) h (User.Email u1)])
               cl.(hospital)) cl)
    by (unfold cl1, client_after; now rewrite Hrun1).
  assert (Hans3 : answered 1 cl1) by (rewrite Hcl1; now apply (answered_after 1 2)).
  unfold response, database_after. rewrite Hrun1. simpl.
  split; [reflexivity|].
  unfold SignUp. rewrite Hb2. unfold bind.
  rewrite isUsernameTaken_run, (answered_up cl1 Hans3).
  rewrite (counted_when_present (User.mk (User.Username u1) h (User.Email u1))).
  - simpl. split; [reflexivity|]. now rewrite Hcl1.
  - rewrite Hcl1. simpl. apply in_or_app. right. now left.
  - now rewrite Hname.
Qed.

(** X20. When bcrypt fails on the password of a signup under a free
    username, the answer is a 500 with "Error hashing password", the
    database is unchanged and the insert is not attempted: the lookup
    is the only call made. *)
Theorem SignUp_hashing_failure (c : gin.Context User.t) (cl : Client) (u : User.t) (e : error) :
  gin.ShouldBindJSON c = Ok u ->
  (forall x, In x cl.(hospital).(users) -> User.Username x <> User.Username u) ->
  hash (User.Password u) bcrypt.DefaultCost = Err e ->
  answered 1 cl ->
  SignUp hash c cl =
  (gin.JSON http.StatusInternalServerError (gin.H "error" "Error hashing password"),
   after_calls 1 cl.(hospital) cl).
Proof.
  intros Hbody Hfresh Hhash Hans.
  unfold SignUp. rewrite Hbody. unfold bind.
  rewrite isUsernameTaken_run, (answered_up cl Hans).
  now rewrite (not_counted_when_absent _ _ Hfresh), Hhash.
Qed.

End MoreSignUpFacts.

(** ** The further properties on the sample ward *)

Lemma create_then_read_round_trip_witness :
  response (GetDoctorByID (id_request "d5" (Ok tt)))
    (client_after (CreateDoctor (create_request (Doctor.mk "d5" "Dr. Aziz" ["Mon"])))
                  (quiet ward)) =
    gin.JSON http.StatusOK (gin.OfDoctor (Doctor.mk "d5" "Dr. Aziz" ["Mon"])) /\
  response (GetDoctors (id_request "" (Ok tt)))
    (client_after (CreateDoctor (create_request (Doctor.mk "d5" "Dr. Aziz" ["Mon"])))
                  (quiet ward)) =
    gin.JSON http.StatusOK
      (gin.OfDoctors [Doctor.mk "d0" "Dr. Farouk" ["Sun"];
                      Doctor.mk "d1" "Dr. Salem" ["Tue"; "Thu"; "Sat"];
                      Doctor.mk "d1" "Dr. Salem (old)" ["Fri"];
                      Doctor.mk "d5" "Dr. Aziz" ["Mon"]]).
Proof.
  refine (create_then_read_round_trip
            (create_request (Doctor.mk "d5" "Dr. Aziz" ["Mon"]))
            (id_request "d5" (Ok tt)) (id_request "" (Ok tt)) (quiet ward)
            (Doctor.mk "d5" "Dr. Aziz" ["Mon"]) eq_refl eq_refl _ _).
  - intros d Hd. simpl in Hd.
    repeat (destruct Hd as [<-|Hd]; [simpl; discriminate|]). contradiction.
  - answered_quiet.
Defined.

Lemma duplicate_doctor_is_shadowed_witness :
  response (GetDoctorByID (id_request "d0" (Ok tt)))
    (client_after (CreateDoctor (create_request (Doctor.mk "d0" "Dr. Nabil" ["Mon"])))
                  (quiet ward)) =
  gin.JSON http.StatusOK (gin.OfDoctor (Doctor.mk "d0" "Dr. Farouk" ["Sun"])).
Proof.
  refine (duplicate_doctor_is_shadowed
            (create_request (Doctor.mk "d0" "Dr. Nabil" ["Mon"]))
            (id_request "d0" (Ok tt)) (quiet ward) (Doctor.mk "d0" "Dr. Nabil" ["Mon"])
            [] (Doctor.mk "d0" "Dr. Farouk" ["Sun"])
            [Doctor.mk "d1" "Dr. Salem" ["Tue"; "Thu"; "Sat"];
             Doctor.mk "d1" "Dr. Salem (old)" ["Fri"]]
            eq_refl eq_refl _ _).
  - first_here.
  - answered_quiet.
Defined.

Lemma cancelling_twice_is_cancelling_once_witness :
  response (CancelAppointment (appointment_request "p2" "A1" (Ok tt)))
    (client_after (CancelAppointment (appointment_request "p2" "A1" (Ok tt))) (quiet ward)) =
    response (CancelAppointment (appointment_request "p2" "A1" (Ok tt))) (quiet ward) /\
  database_after (CancelAppointment (appointment_request "p2" "A1" (Ok tt)))
    (client_after (CancelAppointment (appointment_request "p2" "A1" (Ok tt))) (quiet ward)) =
    store patients_collection
      [Patient.mk "p0" "Hana" (Slice ["B7"]); Patient.mk "p1" "Omar" (Slice []);
       Patient.mk "p2" "Laila" (Slice ["C3"])]
      ward.
Proof.
  refine (cancelling_twice_is_cancelling_once
            (appointment_request "p2" "A1" (Ok tt)) (quiet ward) _).
  answered_quiet.
Defined.

Lemma last_schedule_set_wins_witness :
  database_after (SetDoctorSchedule (id_request "d1" (Ok ["Wed"])))
    (client_after (SetDoctorSchedule (id_request "d1" (Ok ["Mon"; "Tue"]))) (quiet ward)) =
  store doctor_collection
    [Doctor.mk "d0" "Dr. Farouk" ["Sun"]; Doctor.mk "d1" "Dr. Salem" ["Wed"];
     Doctor.mk "d1" "Dr. Salem (old)" ["Fri"]]
    ward.
Proof.
  refine (last_schedule_set_wins
            (id_request "d1" (Ok ["Mon"; "Tue"])) (id_request "d1" (Ok ["Wed"])) (quiet ward)
            ["Mon"; "Tue"] ["Wed"] eq_refl eq_refl eq_refl _).
  answered_quiet.
Defined.

Lemma booking_then_cancelling_witness :
  database_after (CancelAppointment (appointment_request "p0" "Z1" (Ok tt)))
    (client_after (BookAppointment (id_request "p0" (Ok "Z1"))) (quiet ward)) = ward /\
  (database_after (CancelAppointment (appointment_request "p2" "A1" (Ok tt)))
     (client_after (BookAppointment (id_request "p2" (Ok "A1"))) (quiet ward))).(patients) =
    [Patient.mk "p0" "Hana" (Slice ["B7"]); Patient.mk "p1" "Omar" (Slice []);
     Patient.mk "p2" "Laila" (Slice ["C3"])].
Proof.
  split.
  - refine (proj2 (proj2 (proj2 (booking_then_cancelling
              (id_request "p0" (Ok "Z1")) (appointment_request "p0" "Z1" (Ok tt)) (quiet ward)
              "Z1" [] (Patient.mk "p0" "Hana" (Slice ["B7"]))
              [Patient.mk "p1" "Omar" (Slice []);
               Patient.mk "p2" "Laila" (Slice ["A1"; "C3"; "A1"; "A1"])]
              ["B7"] eq_refl eq_refl eq_refl _ _ eq_refl))) _).
    + answered_quiet.
    + first_here.
    + simpl. intuition discriminate.
  - refine (proj1 (proj1 (proj2 (proj2 (booking_then_cancelling
              (id_request "p2" (Ok "A1")) (appointment_request "p2" "A1" (Ok tt)) (quiet ward)
              "A1" [Patient.mk "p0" "Hana" (Slice ["B7"]); Patient.mk "p1" "Omar" (Slice [])]
              (Patient.mk "p2" "Laila" (Slice ["A1"; "C3"; "A1"; "A1"])) []
              ["A1"; "C3"; "A1"; "A1"] eq_refl eq_refl eq_refl _ _ eq_refl))))).
    + answered_quiet.
    + first_here.
Defined.

Lemma updating_there_and_back_witness :
  response (UpdateAppointment (appointment_request "p2" "C3" (Ok "C9"))) (quiet ward) =
    gin.JSON http.StatusOK (gin.H "message" "Appointment updated successfully") /\
  (hospital (client_after (UpdateAppointment (appointment_request "p2" "C3" (Ok "C9")))
                          (quiet ward))).(patients) =
    [Patient.mk "p0" "Hana" (Slice ["B7"]); Patient.mk "p1" "Omar" (Slice []);
     Patient.mk "p2" "Laila" (Slice ["A1"; "C9"; "A1"; "A1"])] /\
  response (UpdateAppointment (appointment_request "p2" "C9" (Ok "C3")))
    (client_after (UpdateAppointment (appointment_request "p2" "C3" (Ok "C9"))) (quiet ward)) =
    gin.JSON http.StatusOK (gin.H "message" "Appointment updated successfully") /\
  database_after (UpdateAppointment (appointment_request "p2" "C9" (Ok "C3")))
    (client_after (UpdateAppointment (appointment_request "p2" "C3" (Ok "C9"))) (quiet ward)) =
  ward.
Proof.
  assert (Hback := updating_there_and_back
            (appointment_request "p2" "C3" (Ok "C9"))
            (appointment_request "p2" "C9" (Ok "C3")) (quiet ward) "C3" "C9"
            [Patient.mk "p0" "Hana" (Slice ["B7"]); Patient.mk "p1" "Omar" (Slice [])]
            (Patient.mk "p2" "Laila" (Slice ["A1"; "C3"; "A1"; "A1"])) []
            ["A1"] ["A1"; "A1"]
            eq_refl eq_refl eq_refl eq_refl eq_refl).
  assert (Hans : answered 2 (quiet ward)) by answered_quiet.
  assert (Hfirst : first_with (fun q => Patient.ID q = "p2") ward.(patients)
            [Patient.mk "p0" "Hana" (Slice ["B7"]); Patient.mk "p1" "Omar" (Slice [])]
            (Patient.mk "p2" "Laila" (Slice ["A1"; "C3"; "A1"; "A1"])) []) by first_here.
  assert (Hnoa : ~ In "C3" ["A1"]) by (simpl; intuition discriminate).
  assert (Hnob : ~ In "C9" ["A1"]) by (simpl; intuition discriminate).
  specialize (Hback Hans Hfirst eq_refl Hnoa Hnob).
  split; [exact (proj1 Hback)|].
  split; [exact (proj1 (proj1 (proj2 Hback)))|].
  split; [exact (proj1 (proj2 (proj2 Hback)))|exact (proj2 (proj2 (proj2 Hback)))].
Defined.

Lemma updating_to_itself_changes_nothing_witness :
  database_after (UpdateAppointment (appointment_request "p2" "A1" (Ok "A1"))) (quiet ward) =
  ward.
Proof.
  exact (updating_to_itself_changes_nothing
           (appointment_request "p2" "A1" (Ok "A1")) (quiet ward) eq_refl).
Defined.

Lemma SignUp_keeps_usernames_distinct_witness :
  NoDup (map User.Username
           (database_after
              (SignUp sample_hash (signup_request (User.mk "bob" "pw" "bob@clinic.example")))
              (quiet ward)).(users)).
Proof.
  refine (SignUp_keeps_usernames_distinct sample_hash
            (signup_request (User.mk "bob" "pw" "bob@clinic.example")) (quiet ward) _).
  simpl. constructor; [intros []|constructor].
Defined.

Lemma signing_up_twice_witness :
  response (SignUp sample_hash (signup_request (User.mk "bob" "other" "b@clinic.example")))
    (client_after (SignUp sample_hash (signup_request (User.mk "bob" "pw" "bob@clinic.example")))
                  (quiet ward)) =
    gin.JSON http.StatusBadRequest (gin.H "error" "Username is already taken") /\
  (database_after (SignUp sample_hash (signup_request (User.mk "bob" "other" "b@clinic.example")))
     (client_after (SignUp sample_hash (signup_request (User.mk "bob" "pw" "bob@clinic.example")))
                   (quiet ward))).(users) =
    [User.mk "alice" "$2a$10$N9qo8uLOickgx2ZMRZoMye" "alice@clinic.example";
     User.mk "bob" "$2a$10$pw" "bob@clinic.example"].
Proof.
  refine (proj2 (signing_up_twice sample_hash
            (signup_request (User.mk "bob" "pw" "bob@clinic.example"))
            (signup_request (User.mk "bob" "other" "b@clinic.example")) (quiet ward)
            (User.mk "bob" "pw" "bob@clinic.example")
            (User.mk "bob" "other" "b@clinic.example") "$2a$10$pw"
            eq_refl eq_refl eq_refl _ eq_refl _)).
  - intros x Hx. simpl in Hx. destruct Hx as [<-|[]]. simpl. discriminate.
  - answered_quiet.
Defined.

Lemma SignUp_hashing_failure_witness :
  SignUp failing_hash (signup_request (User.mk "bob" "pw" "bob@clinic.example")) (quiet ward) =
  (gin.JSON http.StatusInternalServerError (gin.H "error" "Error hashing password"),
   quiet ward).
Proof.
  refine (SignUp_hashing_failure failing_hash
            (signup_request (User.mk "bob" "pw" "bob@clinic.example")) (quiet ward)
            (User.mk "bob" "pw" "bob@clinic.example") ErrHash eq_refl _ eq_refl _).
  - intros x Hx. simpl in Hx. destruct Hx as [<-|[]]. simpl. discriminate.
  - answered_quiet.
Defined.

Lemma GetDoctors_lists_the_collection_witness :
  response (GetDoctors (id_request "" (Ok tt))) (quiet ward) =
    gin.JSON http.StatusOK
      (gin.OfDoctors [Doctor.mk "d0" "Dr. Farouk" ["Sun"];
                      Doctor.mk "d1" "Dr. Salem" ["Tue"; "Thu"; "Sat"];
                      Doctor.mk "d1" "Dr. Salem (old)" ["Fri"]]) /\
  response (GetDoctors (id_request "" (Ok tt))) {| hospital := ward; outages := [true] |} =
    gin.JSON http.StatusInternalServerError (gin.H "error" "Error fetching doctor data").
Proof.
  split.
  - refine (proj1 (GetDoctors_lists_the_collection (id_request "" (Ok tt)) (quiet ward)) _).
    answered_quiet.
  - refine (proj2 (GetDoctors_lists_the_collection (id_request "" (Ok tt))
                     {| hospital := ward; outages := [true] |}) _).
    unfold answered. simpl. intros Hans. inversion Hans; discriminate.
Defined.

Lemma isUsernameTaken_tells_presence_witness :
  exists taken,
    fst (isUsernameTaken "alice" (quiet ward)) = Ok taken /\
    (taken = true <-> exists u, In u ward.(users) /\ User.Username u = "alice").
Proof.
  refine (proj1 (isUsernameTaken_tells_presence "alice" (quiet ward)) _).
  answered_quiet.
Defined.
